(** * VOLTNET SDK: the request pipeline, the realtime channel and two utilities

    A shallow embedding of [VoltnetClient.ts] (HTTP retry interceptor,
    WebSocket channel, event dispatch) and of the [calculatePower] and
    [retryWithBackoff] helpers of [utils.ts], followed by the properties
    the specification states about them. *)

From Stdlib Require Import ZArith Lia Bool PrimFloat QArith Qround.
From stdpp Require Import base list strings gmap.
From Equations Require Import Equations.

(** ** Promises

    An [async] function or an awaited promise settles one way or the other. *)

Inductive Settled (T E : Type) : Type :=
| Resolved (v : T)
| Rejected (e : E).
Arguments Resolved {T E} v.
Arguments Rejected {T E} e.

(** * utils.ts *)

Module Utils.

(** [calculatePower(energyKwh, hours)]: JS numbers are IEEE 754 doubles,
    and [===] on numbers is IEEE equality ([-0 === 0], [NaN !== NaN]). *)
Definition calculatePower (energyKwh hours : float) : float :=
  if PrimFloat.eqb hours 0%float then 0%float
  else PrimFloat.div energyKwh hours.

(** What [retryWithBackoff] does to the outside world, in order. *)
Inductive Effect : Type :=
| Invoke (k : nat)          (* the k-th call of [fn], counted from 0 *)
| Sleep (ms : Z).           (* [setTimeout(resolve, delay)] awaited *)

Section RetryWithBackoff.
Context {T E : Type}.

(** [fn] is a thunk returning a promise; [fn k] is how its k-th
    invocation settles. *)
Variable fn : nat -> Settled T E.

(** The [for (let i = 0; i < maxRetries; i++)] loop, entered at [i]
    with [lastError] as assigned so far ([None] is the unassigned
    [let lastError], i.e. [undefined]) and [calls] earlier invocations.
    The thrown value when the loop falls through is [lastError].
    [maxRetries] is a whole number here, as a count of attempts is;
    [Fractional] below has the loop for any bound. *)
Equations? retry_loop (maxRetries initialDelay i : Z)
    (lastError : option E) (calls : nat)
  : Settled T (option E) * list Effect
  by wf (Z.to_nat (maxRetries - i)) lt :=
retry_loop maxRetries initialDelay i lastError calls
  with Z_lt_dec i maxRetries => {
  | right _ := (Rejected lastError, [])
  | left _ with fn calls => {
    | Resolved v := (Resolved v, [Invoke calls])
    | Rejected error :=
        let pause :=
          if (i <? maxRetries - 1)%Z
          then [Sleep (initialDelay * 2 ^ i)%Z] else [] in
        let rest :=
          retry_loop maxRetries initialDelay (i + 1)%Z (Some error) (S calls) in
        (rest.1, Invoke calls :: pause ++ rest.2)
    }
  }.
Proof. lia. Qed.

Definition retryWithBackoff (maxRetries initialDelay : Z)
  : Settled T (option E) * list Effect :=
  retry_loop maxRetries initialDelay 0%Z None 0%nat.

End RetryWithBackoff.

(** Number of times [fn] was invoked in a run. *)
Fixpoint invocations (tr : list Effect) : nat :=
  match tr with
  | [] => 0
  | Invoke _ :: tr' => S (invocations tr')
  | Sleep _ :: tr' => invocations tr'
  end.

End Utils.

(** ** [retryWithBackoff] on any loop bound

    [maxRetries] is declared a [number]: nothing makes it a whole count.
    Here the loop is written again with [maxRetries] a rational number,
    the counter [i] staying the whole number it is; on a whole
    [maxRetries] this is the loop of [Utils]. *)

Module Fractional.

Section RetryWithBackoff.
Context {T E : Type}.
Variable fn : nat -> Settled T E.

Equations? loop (maxRetries : Q) (initialDelay i : Z)
    (lastError : option E) (calls : nat)
  : Settled T (option E) * list Utils.Effect
  by wf (Z.to_nat (Qceiling maxRetries - i)) lt :=
loop maxRetries initialDelay i lastError calls
  with Qlt_le_dec (inject_Z i) maxRetries => {
  | right _ := (Rejected lastError, [])
  | left _ with fn calls => {
    | Resolved v := (Resolved v, [Utils.Invoke calls])
    | Rejected error :=
        let pause :=
          if Qlt_le_dec (inject_Z i) (maxRetries - 1)%Q
          then [Utils.Sleep (initialDelay * 2 ^ i)%Z] else [] in
        let rest :=
          loop maxRetries initialDelay (i + 1)%Z (Some error) (S calls) in
        (rest.1, Utils.Invoke calls :: pause ++ rest.2)
    }
  }.
Proof.
  assert (i < Qceiling maxRetries)%Z; [|lia].
  rewrite Zlt_Qlt. eapply Qlt_le_trans; [eassumption|]. apply Qle_ceiling.
Qed.

Definition retryWithBackoff (maxRetries : Q) (initialDelay : Z)
  : Settled T (option E) * list Utils.Effect :=
  loop maxRetries initialDelay 0%Z None 0%nat.

End RetryWithBackoff.

End Fractional.

(** * types.ts *)

Module Types.

(** [network?: { timeout?: number; retries?: number }].  A timeout is a
    whole number of milliseconds and a retry count a whole number: the
    fields are modelled by integers, and what is proved of the pipeline
    is proved for such values.  An absent optional field is [None]. *)
Record NetworkConfig : Type := {
  timeout : option Z;
  retries : option Z
}.

Record VoltnetConfig : Type := {
  apiUrl : string;
  apiKey : string;
  participantId : string;
  network : option NetworkConfig;
  enableRealtime : option bool
}.

End Types.

(** [x || d] on an optional number: [undefined] and [0] are falsy. *)
Definition or_default (x : option Z) (d : Z) : Z :=
  match x with
  | Some v => if (v =? 0)%Z then d else v
  | None => d
  end.

(** * VoltnetClient.ts: the request pipeline *)

Module Http.
Import Types.
Local Open Scope Z_scope.

Inductive Method : Type := GET | POST | PATCH | DELETE.

Record Response : Type := {
  status : Z;
  data : string
}.

(** The axios request configuration: the instance defaults merged with
    the arguments of one call.  [_retry] is the ad hoc counter the
    interceptor keeps on it ([None] while the field is absent).
    [headers] are the headers axios has merged for the request when it
    hands it to the adapter.  A transport adapter writes headers of its
    own onto the request (under Node [User-Agent], [Accept-Encoding],
    [Content-Length]), which the configuration of a retry then carries as
    well; these are left out, so what is stated about headers below is
    which ones are present, never that no other is. *)
Record RequestConfig : Type := {
  baseURL : string;
  req_timeout : Z;
  headers : list (string * string);
  method : Method;
  url : string;
  params : option string;
  body : option string;
  _retry : option Z
}.

Definition set_retry (config : RequestConfig) (v : Z) : RequestConfig :=
  {| baseURL := baseURL config; req_timeout := req_timeout config;
     headers := headers config; method := method config; url := url config;
     params := params config; body := body config; _retry := Some v |}.

(** The error axios rejects with: the configuration of the request that
    failed and the response, if one was received. *)
Record AxiosError : Type := {
  config : RequestConfig;
  response : option Response
}.

(** The instance made by [axios.create] in the constructor, together with
    the [retries] constant captured by the interceptor that
    [setupRetryLogic] installs. *)
Record AxiosInstance : Type := {
  defaults_baseURL : string;
  defaults_timeout : Z;
  defaults_headers : list (string * string);
  interceptor_retries : Z
}.

(** The constructor's [axios.create({...})] and [setupRetryLogic]'s
    [const retries = this.config.network?.retries || 3]. *)
Definition create_httpClient (cfg : VoltnetConfig) : AxiosInstance :=
  {| defaults_baseURL := apiUrl cfg;
     defaults_timeout := or_default (n ← network cfg; timeout n) 30000;
     defaults_headers :=
       [ ("Authorization", "Bearer " +:+ apiKey cfg);
         ("Content-Type", "application/json");
         ("X-Participant-Id", participantId cfg) ];
     interceptor_retries := or_default (n ← network cfg; retries n) 3 |}.

(** [shouldRetry(error)] *)
Definition shouldRetry (error : AxiosError) : bool :=
  match response error with
  | None => true
  | Some r => (500 <=? status r) || (status r =? 429)
  end.

(** [!config._retry] *)
Definition retry_falsy (config : RequestConfig) : bool :=
  match _retry config with
  | None => true
  | Some v => v =? 0
  end.

(** [if (!config || !config._retry) config._retry = 0].  The adapter
    always hands the request configuration to the error it builds, so
    [config] is present; errors raised before a request reaches the
    adapter are not part of this model. *)
Definition init_retry (config : RequestConfig) : RequestConfig :=
  if retry_falsy config then set_retry config 0 else config.

(** The number read by [config._retry] once it has been initialised. *)
Definition retry_count (config : RequestConfig) : Z :=
  match _retry (init_retry config) with
  | Some v => v
  | None => 0
  end.

(** What one logical call does to the outside world, in order. *)
Inductive Effect : Type :=
| Attempt (n : nat) (sent : RequestConfig)   (* the adapter is given [sent] *)
| Sleep (ms : Z).                            (* awaited [setTimeout] *)

(** The network as one call sees it: how the adapter settles the n-th
    attempt (counted from 0) of the call, given the configuration sent.
    A rejection carries the response when one was received. *)
Definition Adapter : Type :=
  nat -> RequestConfig -> Settled Response (option Response).

Section Dispatch.
Variable retries : Z.
Variable adapter : Adapter.

(** [this.httpClient(config)]: one attempt, and on rejection the
    handler installed by [setupRetryLogic], which re-enters
    [this.httpClient(config)] with the counter it has just bumped. *)
Equations? httpClient (n : nat) (req : RequestConfig)
  : Settled Response AxiosError * list Effect
  by wf (Z.to_nat (retries - retry_count req)) lt :=
httpClient n req with adapter n req => {
  | Resolved resp := (Resolved resp, [Attempt n req])
  | Rejected r with
      sumbool_of_bool
        ((retry_count req <? retries) &&
         shouldRetry {| config := init_retry req; response := r |}) => {
    | left _ :=
        let config' := set_retry req (retry_count req + 1) in
        let delay := 2 ^ (retry_count config') * 1000 in
        let rest := httpClient (S n) config' in
        (rest.1, Attempt n req :: Sleep delay :: rest.2)
    | right _ :=
        (Rejected {| config := init_retry req; response := r |},
         [Attempt n req])
    }
  }.
Proof.
  apply andb_true_iff in e as [Hlt _]. apply Z.ltb_lt in Hlt.
  subst config'.
  assert (retry_count (set_retry req (retry_count req + 1))
          = retry_count req + 1) as ->; [|lia].
  clear. destruct req as [? ? ? ? ? ? ? [v|]];
    unfold retry_count, init_retry, retry_falsy, set_retry; simpl;
    [|reflexivity].
  destruct (v =? 0) eqn:Hv; simpl; [reflexivity|].
  destruct (v + 1 =? 0) eqn:Hv'; simpl; [|reflexivity].
  apply Z.eqb_eq in Hv'. lia.
Qed.

End Dispatch.

(** The header axios itself sets on every request of every instance
    ([defaults.headers.common] of the package). *)
Definition axios_common_headers : list (string * string) :=
  [ ("Accept", "application/json, text/plain, */*") ].

(** A call through the instance, as the resource modules and the client
    methods make it ([get], [post], [patch], [delete] with a path and an
    optional query or body): the defaults merged with the call's own
    fields; the headers are axios's common ones with the instance's over
    them.  No caller passes headers of its own. *)
Definition request_config (inst : AxiosInstance) (m : Method) (path : string)
    (query data : option string) : RequestConfig :=
  {| baseURL := defaults_baseURL inst; req_timeout := defaults_timeout inst;
     headers := axios_common_headers ++ defaults_headers inst;
     method := m; url := path;
     params := query; body := data; _retry := None |}.

Definition request (inst : AxiosInstance) (adapter : Adapter) (m : Method)
    (path : string) (query data : option string)
  : Settled Response AxiosError * list Effect :=
  httpClient (interceptor_retries inst) adapter 0%nat
    (request_config inst m path query data).

(** Number of attempts in a run, and the delays slept, in order. *)
Fixpoint attempts (tr : list Effect) : nat :=
  match tr with
  | [] => 0
  | Attempt _ _ :: tr' => S (attempts tr')
  | Sleep _ :: tr' => attempts tr'
  end.

Fixpoint delays (tr : list Effect) : list Z :=
  match tr with
  | [] => []
  | Attempt _ _ :: tr' => delays tr'
  | Sleep ms :: tr' => ms :: delays tr'
  end.

(** The failures the specification calls retryable: no response at all,
    or a response with status 500 or more, or 429. *)
Definition retryable (r : option Response) : Prop :=
  r = None \/ exists resp, r = Some resp /\ (500 <= status resp \/ status resp = 429).

Fixpoint sent_configs (tr : list Effect) : list RequestConfig :=
  match tr with
  | [] => []
  | Attempt _ c :: tr' => c :: sent_configs tr'
  | Sleep _ :: tr' => sent_configs tr'
  end.

(** The value a request carries for a header, if it carries the header. *)
Fixpoint header_value (name : string) (hs : list (string * string))
  : option string :=
  match hs with
  | [] => None
  | (k, v) :: rest => if String.eqb k name then Some v else header_value name rest
  end.

Definition header (name : string) (sent : RequestConfig) : option string :=
  header_value name (headers sent).

End Http.

(** * JavaScript values and completions *)

Module Js.

(** What [JSON.parse] can return, and what handlers pass around. *)
#[local] Unset Elimination Schemes.
Inductive Value : Type :=
| Undefined
| Null
| Bool (b : bool)
| Number (z : Z)
| Str (s : string)
| Array (xs : list Value)
| Object (fields : list (string * Value)).
#[local] Set Elimination Schemes.

Fixpoint assoc (key : string) (fields : list (string * Value)) : Value :=
  match fields with
  | [] => Undefined
  | (k, v) :: rest => if String.eqb k key then v else assoc key rest
  end.

(** [v.key] on a value that is neither [null] nor [undefined]. *)
Definition get (v : Value) (key : string) : Value :=
  match v with
  | Object fields => assoc key fields
  | _ => Undefined
  end.

(** [new Error(message)] and the built-in error kinds. *)
Definition error (name message : string) : Value :=
  Object [("name", Str name); ("message", Str message)].

(** How a synchronous call ends. *)
Inductive Completion : Type :=
| Normal
| Throw (exn : Value).

(** [s.replace(pattern, replacement)] with a string pattern: the first
    occurrence only. *)
Definition replace (pattern replacement s : string) : string :=
  match String.index 0 pattern s with
  | Some i =>
      String.substring 0 i s +:+ replacement +:+
      String.substring (i + String.length pattern)
        (String.length s - (i + String.length pattern)) s
  | None => s
  end.

End Js.

(** * The eventemitter3 base class

    [VoltnetClient extends EventEmitter] (the [eventemitter3] package, a
    dependency of the SDK).  Its [on], [removeAllListeners] and [emit] are
    modelled after the package: listeners are kept per event name in
    registration order, and [emit] calls them one after the other in a
    plain loop with no exception handling. *)

Module Emitter.

(** A registered callback: an identity, and what calling it on a payload
    does ([Some exn] when it throws [exn]). *)
Record Listener : Type := {
  handle : nat;
  fn : Js.Value -> option Js.Value
}.

(** One invocation of a listener, as observed. *)
Record Call : Type := {
  callee : nat;
  argument : Js.Value
}.

Definition on (events : gmap string (list Listener)) (event : string)
    (l : Listener) : gmap string (list Listener) :=
  <[event := default [] (events !! event) ++ [l]]> events.

Definition removeAllListeners (events : gmap string (list Listener))
  : gmap string (list Listener) := ∅.

Definition call_of (payload : Js.Value) (l : Listener) : Call :=
  {| callee := handle l; argument := payload |}.

(** The loop of [emit] over the listeners of one event. *)
Fixpoint call_listeners (ls : list Listener) (payload : Js.Value)
  : Js.Completion * list Call :=
  match ls with
  | [] => (Js.Normal, [])
  | l :: rest =>
      match fn l payload with
      | Some exn => (Js.Throw exn, [call_of payload l])
      | None =>
          let r := call_listeners rest payload in
          (r.1, call_of payload l :: r.2)
      end
  end.

(** [emit(event, payload)]; the boolean result (were there listeners)
    is not used by the client and is left out. *)
Definition emit (events : gmap string (list Listener)) (event : string)
    (payload : Js.Value) : Js.Completion * list Call :=
  match events !! event with
  | None => (Js.Normal, [])
  | Some ls => call_listeners ls payload
  end.

End Emitter.

(** * VoltnetClient.ts: the realtime channel *)

Module Channel.
Import Types.

(** [WebSocket.readyState] *)
Inductive ReadyState : Type := CONNECTING | OPEN | CLOSING | CLOSED.

Definition is_closed (r : ReadyState) : bool :=
  match r with CLOSED => true | _ => false end.

(** [event.data] of a message event, by what [JSON.parse] makes of it:
    a [SyntaxError], or a value. *)
Inductive FrameData : Type :=
| Undecodable
| Decoded (data : Js.Value).

Inductive Console : Type :=
| Log (message : string)
| Warn (message : string) (arg : Js.Value)
| Error (message : string) (arg : Js.Value)
| Uncaught (exn : Js.Value).     (* an exception that left an event handler *)

(** The client object and the part of the runtime it acts on.  Every
    socket in [sockets] was made by [initializeWebSocket] and carries the
    four handlers it attaches; [wsConnection] is an index into it.  Every
    entry of [timers] is a pending [setTimeout(() =>
    this.initializeWebSocket(), delay)], by its delay in milliseconds. *)
Record State : Type := {
  config : VoltnetConfig;
  wsConnection : option nat;
  _events : gmap string (list Emitter.Listener);
  sockets : list ReadyState;
  timers : list Z;
  console : list Console;
  invoked : list Emitter.Call
}.

Definition print (s : State) (line : Console) : State :=
  {| config := config s; wsConnection := wsConnection s; _events := _events s;
     sockets := sockets s; timers := timers s;
     console := console s ++ [line]; invoked := invoked s |}.

Definition set_wsConnection (s : State) (w : option nat) : State :=
  {| config := config s; wsConnection := w; _events := _events s;
     sockets := sockets s; timers := timers s;
     console := console s; invoked := invoked s |}.

Definition set_events (s : State) (e : gmap string (list Emitter.Listener)) : State :=
  {| config := config s; wsConnection := wsConnection s; _events := e;
     sockets := sockets s; timers := timers s;
     console := console s; invoked := invoked s |}.

Definition set_sockets (s : State) (l : list ReadyState) : State :=
  {| config := config s; wsConnection := wsConnection s; _events := _events s;
     sockets := l; timers := timers s;
     console := console s; invoked := invoked s |}.

Definition set_timers (s : State) (t : list Z) : State :=
  {| config := config s; wsConnection := wsConnection s; _events := _events s;
     sockets := sockets s; timers := t;
     console := console s; invoked := invoked s |}.

Definition record_calls (s : State) (calls : list Emitter.Call) : State :=
  {| config := config s; wsConnection := wsConnection s; _events := _events s;
     sockets := sockets s; timers := timers s;
     console := console s; invoked := invoked s ++ calls |}.

(** [this.emit(event, payload)] *)
Definition emit (s : State) (event : string) (payload : Js.Value)
  : Js.Completion * State :=
  let r := Emitter.emit (_events s) event payload in
  (r.1, record_calls s r.2).

(** [handleWebSocketMessage(data)].  Destructuring [null] throws a
    [TypeError]; the [switch] compares [type] with [===]. *)
Definition handleWebSocketMessage (s : State) (data : Js.Value)
  : Js.Completion * State :=
  match data with
  | Js.Null | Js.Undefined =>
      (Js.Throw (Js.error "TypeError" "Cannot destructure property"), s)
  | _ =>
      let type := Js.get data "type" in
      let payload := Js.get data "payload" in
      match type with
      | Js.Str t =>
          if String.eqb t "measurement" then emit s "measurement" payload
          else if String.eqb t "transaction" then emit s "transaction" payload
          else if String.eqb t "settlement" then emit s "settlement" payload
          else if String.eqb t "offer" then emit s "offer" payload
          else if String.eqb t "price-update" then emit s "price-update" payload
          else if String.eqb t "balance-update" then emit s "balance-update" payload
          else (Js.Normal, print s (Warn "[VOLTNET] Unknown message type:" type))
      | _ => (Js.Normal, print s (Warn "[VOLTNET] Unknown message type:" type))
      end
  end.

(** The four handlers attached by [initializeWebSocket]. *)
Definition onopen (s : State) : Js.Completion * State :=
  (Js.Normal, print s (Log "[VOLTNET] WebSocket connected")).

Definition onmessage (s : State) (d : FrameData) : Js.Completion * State :=
  match d with
  | Undecodable =>
      (Js.Normal,
       print s (Error "[VOLTNET] Failed to parse WebSocket message:"
                  (Js.error "SyntaxError" "Unexpected token")))
  | Decoded data =>
      match handleWebSocketMessage s data with
      | (Js.Normal, s') => (Js.Normal, s')
      | (Js.Throw exn, s') =>
          (Js.Normal,
           print s' (Error "[VOLTNET] Failed to parse WebSocket message:" exn))
      end
  end.

Definition onerror (s : State) : Js.Completion * State :=
  let s1 := print s (Error "[VOLTNET] WebSocket error:" Js.Undefined) in
  emit s1 "error" (Js.error "Error" "WebSocket connection error").

Definition onclose (s : State) : Js.Completion * State :=
  let s1 := print s (Log "[VOLTNET] WebSocket disconnected") in
  (Js.Normal, set_timers s1 (timers s1 ++ [5000%Z])).

(** The address [initializeWebSocket] connects to. *)
Definition wsUrl (cfg : VoltnetConfig) : string :=
  (Js.replace "http" "ws" (apiUrl cfg) +:+ "/ws") +:+
  "?apiKey=" +:+ apiKey cfg +:+ "&participantId=" +:+ participantId cfg.

(** The runtime runs a handler and reports an exception that leaves it. *)
Definition deliver (r : Js.Completion * State) : State :=
  match r.1 with
  | Js.Normal => r.2
  | Js.Throw exn => print r.2 (Uncaught exn)
  end.

(** What the client is called with and what the runtime delivers. *)
Inductive Event : Type :=
| SocketOpened (k : nat)                  (* handshake done on socket k *)
| SocketMessage (k : nat) (d : FrameData) (* a frame arrives on open socket k *)
| SocketClosed (k : nat) (failed : bool)  (* socket k is now closed; the
                                             [error] event fires before
                                             [close] when the connection failed *)
| TimerFired (i : nat)                    (* the i-th pending timer elapses *)
| Subscribe (event : string) (l : Emitter.Listener)  (* [client.on] *)
| Disconnect                              (* [client.disconnect()] *)
| SocketError (k : nat).                  (* the [error] event alone fires on
                                             socket k: the handlers are
                                             attached one by one, and
                                             [onerror] runs whether or not
                                             a [close] event follows *)

Section Runtime.

(** Whether [new WebSocket(url)] returns for this address (it throws a
    [SyntaxError] on one it cannot use). *)
Variable WebSocket_accepts : string -> bool.

(** [initializeWebSocket()] *)
Definition initializeWebSocket (s : State) : State :=
  if WebSocket_accepts (wsUrl (config s)) then
    set_wsConnection
      (set_sockets s (sockets s ++ [CONNECTING]))
      (Some (length (sockets s)))
  else
    print s (Error "[VOLTNET] Failed to initialize WebSocket:"
               (Js.error "SyntaxError" "invalid URL")).

(** [new VoltnetClient(config)], the channel's part of it. *)
Definition new_VoltnetClient (cfg : VoltnetConfig) : State :=
  let s := {| config := cfg; wsConnection := None; _events := ∅;
              sockets := []; timers := []; console := []; invoked := [] |} in
  match enableRealtime cfg with
  | Some true => initializeWebSocket s
  | _ => s
  end.

(** [WebSocket.close()]: starts closing a socket that is connecting or
    open, and does nothing on one that is closing or closed. *)
Definition close (s : State) (k : nat) : State :=
  match sockets s !! k with
  | Some CONNECTING | Some OPEN => set_sockets s (<[k := CLOSING]> (sockets s))
  | _ => s
  end.

(** [disconnect()] *)
Definition disconnect (s : State) : State :=
  let s1 :=
    match wsConnection s with
    | Some k => set_wsConnection (close s k) None
    | None => s
    end in
  set_events s1 (Emitter.removeAllListeners (_events s1)).

Definition step (s : State) (ev : Event) : State :=
  match ev with
  | SocketOpened k =>
      match sockets s !! k with
      | Some CONNECTING =>
          deliver (onopen (set_sockets s (<[k := OPEN]> (sockets s))))
      | _ => s
      end
  | SocketMessage k d =>
      match sockets s !! k with
      | Some OPEN => deliver (onmessage s d)
      | _ => s
      end
  | SocketClosed k failed =>
      match sockets s !! k with
      | Some CLOSED | None => s
      | Some _ =>
          let s1 := set_sockets s (<[k := CLOSED]> (sockets s)) in
          let s2 := if failed then deliver (onerror s1) else s1 in
          deliver (onclose s2)
      end
  | TimerFired i =>
      match timers s !! i with
      | Some _ => initializeWebSocket (set_timers s (delete i (timers s)))
      | None => s
      end
  | Subscribe event l => set_events s (Emitter.on (_events s) event l)
  | Disconnect => disconnect s
  | SocketError k =>
      match sockets s !! k with
      | Some CLOSED | None => s
      | Some _ => deliver (onerror s)
      end
  end.

Definition run (s : State) (evs : list Event) : State :=
  foldl step s evs.

End Runtime.

(** A state from which nothing more can happen on the channel's own
    account: every socket has been reported closed and no timer is
    pending. *)
Definition terminal (s : State) : bool :=
  forallb is_closed (sockets s) && bool_decide (timers s = []).

(** Two states that differ in console output and recorded calls only. *)
Definition same_channel (s s' : State) : Prop :=
  config s' = config s /\ wsConnection s' = wsConnection s
  /\ _events s' = _events s /\ sockets s' = sockets s /\ timers s' = timers s.

(** A state in which something can still happen on the channel: a socket
    that has not been reported closed yet, or a pending timer. *)
Definition alive (s : State) : Prop :=
  (exists k st, sockets s !! k = Some st /\ is_closed st = false)
  \/ timers s <> [].

(** The lines written with [console.warn] or [console.error]. *)
Definition diagnostic (line : Console) : bool :=
  match line with
  | Warn _ _ | Error _ _ => true
  | Log _ | Uncaught _ => false
  end.

(** The kinds [handleWebSocketMessage] routes. *)
Definition recognized : list string :=
  ["measurement"; "transaction"; "settlement"; "offer"; "price-update";
   "balance-update"].

(** The kind of a frame: its [type] when the frame decodes to something
    that has one and it is a string. *)
Definition frame_kind (d : FrameData) : option string :=
  match d with
  | Decoded data =>
      match data with
      | Js.Null | Js.Undefined => None
      | _ => match Js.get data "type" with Js.Str t => Some t | _ => None end
      end
  | Undecodable => None
  end.

End Channel.

(** * Sample inputs *)

Module Examples.
Import Types.

Definition sample_config : VoltnetConfig :=
  {| apiUrl := "https://api.voltnet.io"; apiKey := "key-1";
     participantId := "participant-1"; network := None;
     enableRealtime := Some true |}.

Definition sample_request : Http.RequestConfig :=
  Http.request_config (Http.create_httpClient sample_config)
    Http.GET "/participants/participant-1" None None.

Definition unavailable : Http.Response :=
  {| Http.status := 503; Http.data := "" |}.

Definition ok : Http.Response :=
  {| Http.status := 200; Http.data := "{}" |}.

(** A backend that answers 503 once and 200 afterwards. *)
Definition flaky : Http.Adapter :=
  fun n _ => match n with
             | O => Rejected (Some unavailable)
             | S _ => Resolved ok
             end.

Definition boom : Js.Value := Js.error "Error" "boom".

(** A listener that returns, and one that throws [boom]. *)
Definition quiet (h : nat) : Emitter.Listener :=
  {| Emitter.handle := h; Emitter.fn := fun _ => None |}.

Definition thrower (h : nat) : Emitter.Listener :=
  {| Emitter.handle := h; Emitter.fn := fun _ => Some boom |}.

Definition reading : Js.Value := Js.Object [("energy", Js.Number 5)].

(** The frame [{ type: kind, payload: payload }] once decoded. *)
Definition frame (kind : string) (payload : Js.Value) : Js.Value :=
  Js.Object [("type", Js.Str kind); ("payload", payload)].

Definition accept_all : string -> bool := fun _ => true.

(** A [WebSocket] constructor that takes [ws:] and [wss:] addresses and
    throws on anything else. *)
Definition ws_scheme_only : string -> bool :=
  fun address => String.prefix "ws://" address || String.prefix "wss://" address.

(** A configuration whose [apiUrl] was written without its scheme. *)
Definition schemeless_config : VoltnetConfig :=
  {| apiUrl := "api.voltnet.io"; apiKey := "key-1";
     participantId := "participant-1"; network := None;
     enableRealtime := Some true |}.

(** A client with realtime enabled whose socket has opened, with a
    throwing and then a returning listener on [measurement]. *)
Definition listening : Channel.State :=
  Channel.run accept_all (Channel.new_VoltnetClient accept_all sample_config)
    [Channel.SocketOpened 0;
     Channel.Subscribe "measurement" (thrower 1);
     Channel.Subscribe "measurement" (quiet 2)].

End Examples.

(** * utils.ts, continued *)

Module MoreUtils.
#[local] Set Warnings "-inexact-float".

(** A JS number is truthy unless it is a zero or [NaN]. *)
Definition number_truthy (x : float) : bool :=
  negb (PrimFloat.eqb x 0%float) && PrimFloat.eqb x x.

(** [String.prototype.toLowerCase] on ASCII text: the letters [A]-[Z]
    move to [a]-[z], every other character stays. *)
Definition lower (c : Ascii.ascii) : Ascii.ascii :=
  let n := Ascii.nat_of_ascii c in
  if (65 <=? n)%nat && (n <=? 90)%nat then Ascii.ascii_of_nat (n + 32) else c.

Fixpoint toLowerCase (s : string) : string :=
  match s with
  | EmptyString => EmptyString
  | String c rest => String (lower c) (toLowerCase rest)
  end.

(** What [emissionFactors[key]] finds: a number of the literal, something
    inherited from [Object.prototype] (the only names there that a
    lower-cased key can spell are [constructor] and [__proto__]), or
    nothing. *)
Inductive Found : Type :=
| Own (factor : float)
| Inherited
| Missing.

Definition emissionFactors (key : string) : Found :=
  if String.eqb key "solar" then Own 0.05%float
  else if String.eqb key "wind" then Own 0.02%float
  else if String.eqb key "hydro" then Own 0.024%float
  else if String.eqb key "grid" then Own 0.5%float
  else if String.eqb key "battery" then Own 0%float
  else if String.eqb key "other" then Own 0.5%float
  else if String.eqb key "constructor" then Inherited
  else if String.eqb key "__proto__" then Inherited
  else Missing.

(** [emissionFactors[source.toLowerCase()] || 0.5], as the number the
    product is taken with: an inherited function or object is truthy and
    multiplies as [NaN]. *)
Definition factor_of (source : string) : float :=
  match emissionFactors (toLowerCase source) with
  | Own x => if number_truthy x then x else 0.5%float
  | Inherited => PrimFloat.nan
  | Missing => 0.5%float
  end.

(** [calculateCO2(energyKwh, source)] *)
Definition calculateCO2 (energyKwh : float) (source : string) : float :=
  PrimFloat.mul energyKwh (factor_of source).


(** ** [debounce(fn, delay)]

    The closure returned and the timers it has set.  [timeoutId] is the
    closure's variable ([None] while unassigned); [pending] holds the
    timers set by the closure that have neither fired nor been cleared,
    each with the arguments its callback will pass to [fn]; [next_id] is
    the identifier the next [setTimeout] returns; [ran] lists the
    arguments [fn] has been called with. *)
Section Debounce.
Context {A : Type}.

Record Debounced : Type := {
  timeoutId : option nat;
  pending : list (nat * A);
  next_id : nat;
  ran : list A
}.

Definition debounce : Debounced :=
  {| timeoutId := None; pending := []; next_id := 0; ran := [] |}.

(** [clearTimeout(id)]: a timer that is pending is removed, anything
    else is ignored. *)
Definition clearTimeout (id : option nat) (timers : list (nat * A))
  : list (nat * A) :=
  match id with
  | Some i => filter (fun t => t.1 <> i) timers
  | None => timers
  end.

Inductive DebounceEvent : Type :=
| DCall (args : A)        (* the debounced function is called *)
| DFire (id : nat).       (* the runtime runs the callback of timer [id] *)

Definition debounce_step (d : Debounced) (ev : DebounceEvent) : Debounced :=
  match ev with
  | DCall args =>
      {| timeoutId := Some (next_id d);
         pending := clearTimeout (timeoutId d) (pending d) ++ [(next_id d, args)];
         next_id := S (next_id d);
         ran := ran d |}
  | DFire id =>
      match list_find (fun t => t.1 = id) (pending d) with
      | Some (_, (_, args)) =>
          {| timeoutId := timeoutId d;
             pending := filter (fun t => t.1 <> id) (pending d);
             next_id := next_id d;
             ran := ran d ++ [args] |}
      | None => d
      end
  end.

Definition debounce_run (evs : list DebounceEvent) : Debounced :=
  foldl debounce_step debounce evs.

(** The arguments of the calls in a sequence of events, in order. *)
Fixpoint call_args (evs : list DebounceEvent) : list A :=
  match evs with
  | [] => []
  | DCall args :: rest => args :: call_args rest
  | DFire _ :: rest => call_args rest
  end.

End Debounce.
Arguments Debounced A : clear implicits.
Arguments DebounceEvent A : clear implicits.

(** ** [throttle(fn, limit)]

    [inThrottle] is the closure's flag (unassigned reads as false);
    [resets] counts the pending [setTimeout(() => (inThrottle = false),
    limit)]; [calls] lists every call of [fn], [returned] those that
    returned.  [fn args] is [Some exn] when [fn] throws on [args]. *)
Section Throttle.
Context {A : Type}.
Variable fn : A -> option Js.Value.







End Throttle.

(** ** [validateMeasurement(measurement)] *)

(** A property of the object passed in, as far as the checks tell values
    apart.  The measurement itself is an object: on [null] or [undefined]
    the first property read throws. *)
Inductive Field : Type :=
| Absent                    (* [undefined] *)
| IsNull
| IsBool (b : bool)
| IsNumber (x : float)
| IsString (s : string)
| IsObject.

Definition truthy (v : Field) : bool :=
  match v with
  | Absent | IsNull => false
  | IsBool b => b
  | IsNumber x => number_truthy x
  | IsString s => negb (String.eqb s "")
  | IsObject => true
  end.

Record Measurement : Type := {
  deviceId : Field;
  timestamp : Field;
  energy : Field;
  power : Field;
  source : Field
}.

(** [typeof v !== 'number' || v < 0] *)
Definition not_a_nonnegative_number (v : Field) : bool :=
  match v with
  | IsNumber x => PrimFloat.ltb x 0%float
  | _ => true
  end.

Section ValidateMeasurement.

(** [isValidTimestamp(timestamp)]: whether [new Date(timestamp)] is a
    valid date is the runtime's affair. *)
Variable isValidTimestamp : Field -> bool.

Definition validateMeasurement (m : Measurement) : bool * list string :=
  let errors :=
    (if negb (truthy (deviceId m)) then ["deviceId is required"] else [])
    ++ (if negb (truthy (timestamp m)) || negb (isValidTimestamp (timestamp m))
        then ["valid timestamp is required"] else [])
    ++ (if not_a_nonnegative_number (energy m)
        then ["energy must be a non-negative number"] else [])
    ++ (if match power m with
           | Absent => false
           | p => not_a_nonnegative_number p
           end
        then ["power must be a non-negative number"] else [])
    ++ (if negb (truthy (source m)) then ["source is required"] else []) in
  (match errors with [] => true | _ => false end, errors).

End ValidateMeasurement.

End MoreUtils.

(** * Counting what the channel holds *)

Module MoreChannel.

(** The sockets that are not closed yet. *)
Definition live_sockets (s : Channel.State) : nat :=
  length (filter (fun st => Channel.is_closed st = false) (Channel.sockets s)).

End MoreChannel.

(** * The resource modules: what they add to the client

    [PricingEngine.ts], [P2PMarket.ts], [TransactionManager.ts] and
    [EnergyMeter.ts] send their requests through the pipeline above; the
    functions below are the ones with logic of their own. *)

Module Modules.
#[local] Set Warnings "-inexact-float".

(** eventemitter3's [off(event, fn)] for a function [fn], after the
    package: every listener of the event whose function is [fn] is
    dropped, and an event left without listeners is removed. *)
Definition off (events : gmap string (list Emitter.Listener)) (event : string)
    (h : nat) : gmap string (list Emitter.Listener) :=
  match events !! event with
  | None => events
  | Some ls =>
      match filter (fun l => Emitter.handle l <> h) ls with
      | [] => delete event events
      | kept => <[event := kept]> events
      end
  end.

(** [client.on(event, callback)] and [client.off(event, callback)] *)
Definition client_on (s : Channel.State) (event : string)
    (l : Emitter.Listener) : Channel.State :=
  Channel.set_events s (Emitter.on (Channel._events s) event l).

Definition client_off (s : Channel.State) (event : string)
    (l : Emitter.Listener) : Channel.State :=
  Channel.set_events s (off (Channel._events s) event (Emitter.handle l)).

(** The listeners of an event, in subscription order. *)
Definition listeners (s : Channel.State) (event : string)
  : list Emitter.Listener :=
  default [] (Channel._events s !! event).

(** [PricingEngine.subscribeToPriceUpdates] / [unsubscribeFromPriceUpdates] *)
Definition subscribeToPriceUpdates s callback := client_on s "price-update" callback.
Definition unsubscribeFromPriceUpdates s callback := client_off s "price-update" callback.

(** [TransactionManager.subscribeToTransactions] and the like *)
Definition subscribeToTransactions s callback := client_on s "transaction" callback.
Definition unsubscribeFromTransactions s callback := client_off s "transaction" callback.
Definition subscribeToSettlements s callback := client_on s "settlement" callback.
Definition unsubscribeFromSettlements s callback := client_off s "settlement" callback.

(** ** [P2PMarket.subscribeToOffers] *)

(** [filters?: { source?: EnergySource; maxPrice?: number }] *)
Record OfferFilters : Type := {
  filter_source : option string;
  maxPrice : option float
}.

(** The two fields of a [MarketOffer] the wrapper reads. *)
Record OfferView : Type := {
  offer_source : string;
  pricePerKwh : float
}.

(** Whether [wrappedCallback] returns before it reaches [callback(offer)]. *)
Definition filtered_out (filters : option OfferFilters) (offer : OfferView) : bool :=
  match filters with
  | None => false
  | Some f =>
      match filter_source f with
      | Some src =>
          negb (String.eqb src "") && negb (String.eqb (offer_source offer) src)
      | None => false
      end
      || match maxPrice f with
         | Some m =>
             MoreUtils.number_truthy m && PrimFloat.ltb m (pricePerKwh offer)
         | None => false
         end
  end.

Section Offers.

(** How the payload of an [offer] event reads as a [MarketOffer]: the
    parameter type of the wrapper is an unchecked annotation. *)
Variable view : Js.Value -> OfferView.

Definition wrappedCallback (filters : option OfferFilters)
    (callback : Js.Value -> option Js.Value) : Js.Value -> option Js.Value :=
  fun offer => if filtered_out filters (view offer) then None else callback offer.

(** [subscribeToOffers(callback, filters)]; [wrapper] is the identity of
    the closure made by this call. *)
Definition subscribeToOffers (s : Channel.State) (callback : Emitter.Listener)
    (filters : option OfferFilters) (wrapper : nat) : Channel.State :=
  client_on s "offer"
    {| Emitter.handle := wrapper;
       Emitter.fn := wrappedCallback filters (Emitter.fn callback) |}.

End Offers.

(** [unsubscribeFromOffers(callback)] *)
Definition unsubscribeFromOffers (s : Channel.State) (callback : Emitter.Listener)
  : Channel.State :=
  client_off s "offer" callback.

(** ** [PricingEngine.calculateCost] *)

Record Factors : Type := {
  timeOfDay : option float;
  demandLoad : option float;
  greenEnergy : option float
}.

Record PriceInfo : Type := {
  price_pricePerKwh : float;
  factors : option Factors
}.

(** [if (factor) basePrice *= factor] *)
Definition apply_factor (basePrice : float) (factor : option float) : float :=
  match factor with
  | Some x => if MoreUtils.number_truthy x then PrimFloat.mul basePrice x else basePrice
  | None => basePrice
  end.

Section CalculateCost.

(** [parseFloat(x.toFixed(4))] *)
Variable round4 : float -> float.

Definition calculateCost (energy : float) (price : PriceInfo) : float :=
  let basePrice := PrimFloat.mul (price_pricePerKwh price) energy in
  let basePrice :=
    match factors price with
    | Some f =>
        apply_factor
          (apply_factor (apply_factor basePrice (timeOfDay f)) (demandLoad f))
          (greenEnergy f)
    | None => basePrice
    end in
  round4 basePrice.

End CalculateCost.

(** ** [EnergyMeter.verifySignature] and [signMeasurement] *)

Record EnergyMeasurement : Type := {
  deviceId : string;
  timestamp : string;
  energy : float;
  power : option float;
  voltage : option float;
  current : option float;
  source : string;
  signature : option string;
  metadata : option string
}.

Definition verifySignature (measurement : EnergyMeasurement) (publicKey : string)
  : bool :=
  match signature measurement with
  | Some sig => negb (String.eqb sig "")
  | None => false
  end.

Section SignMeasurement.

(** [Buffer.from(JSON.stringify({ deviceId, timestamp, energy, power }))
    .toString('base64')] *)
Variable base64_json : string -> string -> float -> option float -> string.

Definition signMeasurement (measurement : EnergyMeasurement) (privateKey : string)
  : EnergyMeasurement :=
  {| deviceId := deviceId measurement; timestamp := timestamp measurement;
     energy := energy measurement; power := power measurement;
     voltage := voltage measurement; current := current measurement;
     source := source measurement;
     signature :=
       Some ("sig_" +:+
             base64_json (deviceId measurement) (timestamp measurement)
               (energy measurement) (power measurement));
     metadata := metadata measurement |}.

End SignMeasurement.

End Modules.

(** * More sample inputs *)

Module MoreExamples.
Import Types.

(** A configuration asking for two retries. *)
Definition two_retries : VoltnetConfig :=
  {| apiUrl := "https://api.voltnet.io"; apiKey := "key-1";
     participantId := "participant-1";
     network := Some {| timeout := None; retries := Some 2%Z |};
     enableRealtime := None |}.

Definition server_error : Http.Response :=
  {| Http.status := 500; Http.data := "" |}.

(** A backend that answers 500 twice and 200 from the third attempt on. *)
Definition recovering : Http.Adapter :=
  fun n _ => if (n <? 2)%nat then Rejected (Some server_error)
             else Resolved Examples.ok.

(** A connected client with two returning listeners on [offer]. *)
Definition watching : Channel.State :=
  Channel.run Examples.accept_all
    (Channel.new_VoltnetClient Examples.accept_all Examples.sample_config)
    [Channel.SocketOpened 0;
     Channel.Subscribe "offer" (Examples.quiet 1);
     Channel.Subscribe "offer" (Examples.quiet 2)].

End MoreExamples.

(** * Properties of utils.ts *)

Section UtilsFacts.
Import Utils.
Context {T E : Type} (fn : nat -> Settled T E).
Local Open Scope Z_scope.

Lemma invocations_app (tr1 tr2 : list Effect) :
  invocations (tr1 ++ tr2) = (invocations tr1 + invocations tr2)%nat.
Proof.
  induction tr1 as [|[k|ms] tr1 IH]; simpl; auto.
Qed.

(** Once [i] has reached [maxRetries] the loop is over: nothing is
    invoked and [lastError] is thrown as it stands. *)
Lemma retry_loop_done (maxRetries d i : Z) (last : option E) (calls : nat) :
  maxRetries <= i ->
  retry_loop fn maxRetries d i last calls = (Rejected last, []).
Proof.
  intros H. simp retry_loop.
  destruct (Z_lt_dec i maxRetries); [lia | reflexivity].
Qed.

Lemma retry_loop_invocations_le (maxRetries d i : Z) (last : option E) (calls : nat) :
  Z.of_nat (invocations (retry_loop fn maxRetries d i last calls).2)
  <= Z.max 0 (maxRetries - i).
Proof.
  funelim (retry_loop fn maxRetries d i last calls); simpl.
  - lia.
  - lia.
  - rewrite invocations_app.
    match goal with
    | IH : Z.of_nat (invocations _) <= _ |- _ => revert IH
    end.
    destruct (i <? maxRetries - 1); simpl; lia.
Qed.

(** When every invocation rejects, the loop runs to its end: [fn] is
    invoked once per remaining iteration and the error of the last
    invocation is the one thrown. *)
Lemma retry_loop_all_rejected (err : nat -> E) :
  (forall k, fn k = Rejected (err k)) ->
  forall (maxRetries d i : Z) (last : option E) (calls : nat),
    i < maxRetries ->
    (retry_loop fn maxRetries d i last calls).1
      = Rejected (Some (err (calls + Z.to_nat (maxRetries - i) - 1)%nat))
    /\ invocations (retry_loop fn maxRetries d i last calls).2
      = Z.to_nat (maxRetries - i).
Proof.
  intros Hfn maxRetries d i last calls.
  funelim (retry_loop fn maxRetries d i last calls); intros Hlt; simpl.
  - lia.
  - rewrite Hfn in Heq. discriminate.
  - rewrite Hfn in Heq. injection Heq as <-.
    rewrite invocations_app.
    destruct (Z_lt_dec (i + 1) maxRetries) as [Hmore|Hlast].
    + match goal with
      | IH : forall _ : nat -> E, _ |- _ =>
          destruct (IH err Hfn Hmore) as [IH1 IH2]
      end.
      rewrite IH1, IH2. split.
      * do 3 f_equal. lia.
      * destruct (i <? maxRetries - 1); simpl; lia.
    + rewrite retry_loop_done by lia. simpl. split.
      * do 3 f_equal. lia.
      * destruct (i <? maxRetries - 1); simpl; lia.
Qed.

End UtilsFacts.

(** C9.  For every [energyKwh], [calculatePower(energyKwh, 0)] is [0]: the
    guard [hours === 0] is taken for a zero of either sign, so no division
    by zero is ever evaluated. *)
Theorem C9_calculatePower_zero_hours (energyKwh : float) :
  Utils.calculatePower energyKwh 0%float = 0%float
  /\ Utils.calculatePower energyKwh (-0)%float = 0%float.
Proof. split; reflexivity. Qed.

Section FractionalFacts.
Context {T E : Type} (fn : nat -> Settled T E).

Lemma Qlt_ceiling (i : Z) (q : Q) :
  (inject_Z i < q)%Q -> (i < Qceiling q)%Z.
Proof.
  intros H. rewrite Zlt_Qlt. eapply Qlt_le_trans; [exact H|]. apply Qle_ceiling.
Qed.

Lemma Qceiling_le_Z (i : Z) (q : Q) :
  (q <= inject_Z i)%Q -> (Qceiling q <= i)%Z.
Proof.
  intros H. rewrite <- (Qceiling_Z i). apply Qceiling_resp_le. exact H.
Qed.

Lemma frac_retry_loop_done (maxRetries : Q) (d i : Z) (last : option E)
    (calls : nat) :
  (maxRetries <= inject_Z i)%Q ->
  Fractional.loop fn maxRetries d i last calls = (Rejected last, []).
Proof.
  intros H. simp loop.
  destruct (Qlt_le_dec (inject_Z i) maxRetries) as [Hlt|Hle]; [|reflexivity].
  exfalso. apply (Qlt_irrefl maxRetries).
  eapply Qle_lt_trans; eassumption.
Qed.

Lemma frac_retry_loop_invocations_le (maxRetries : Q) (d i : Z)
    (last : option E) (calls : nat) :
  (Z.of_nat (Utils.invocations (Fractional.loop fn maxRetries d i last calls).2)
   <= Z.max 0 (Qceiling maxRetries - i))%Z.
Proof.
  funelim (Fractional.loop fn maxRetries d i last calls); simpl.
  - lia.
  - match goal with
    | Hlt : (inject_Z _ < _)%Q |- _ => pose proof (Qlt_ceiling _ _ Hlt)
    end.
    lia.
  - rewrite invocations_app.
    match goal with
    | Hlt : (inject_Z _ < _)%Q |- _ => pose proof (Qlt_ceiling _ _ Hlt)
    end.
    match goal with
    | IH : (Z.of_nat (Utils.invocations _) <= _)%Z |- _ => revert IH
    end.
    destruct (Qlt_le_dec (inject_Z i) (maxRetries - 1)); simpl; lia.
Qed.

(** When every invocation rejects, the loop runs for every [i] below
    [maxRetries], that is [maxRetries] rounded up many times, and the
    error of the last invocation is the one thrown. *)
Lemma frac_retry_loop_all_rejected (err : nat -> E) :
  (forall k, fn k = Rejected (err k)) ->
  forall (maxRetries : Q) (d i : Z) (last : option E) (calls : nat),
    (inject_Z i < maxRetries)%Q ->
    (Fractional.loop fn maxRetries d i last calls).1
      = Rejected (Some (err (calls + Z.to_nat (Qceiling maxRetries - i) - 1)%nat))
    /\ Utils.invocations (Fractional.loop fn maxRetries d i last calls).2
      = Z.to_nat (Qceiling maxRetries - i).
Proof.
  intros Hfn maxRetries d i last calls.
  funelim (Fractional.loop fn maxRetries d i last calls);
    intros Hlt; simpl.
  - exfalso. apply (Qlt_irrefl maxRetries). eapply Qle_lt_trans; eassumption.
  - rewrite Hfn in Heq. discriminate.
  - rewrite Hfn in Heq. injection Heq as <-.
    rewrite invocations_app.
    pose proof (Qlt_ceiling _ _ Hlt) as Hceil.
    destruct (Qlt_le_dec (inject_Z (i + 1)) maxRetries) as [Hmore|Hlast].
    + match goal with
      | IH : forall _ : nat -> E, _ |- _ =>
          destruct (IH err Hfn Hmore) as [IH1 IH2]
      end.
      rewrite IH1, IH2. split.
      * do 3 f_equal. lia.
      * destruct (Qlt_le_dec (inject_Z i) (maxRetries - 1)); simpl; lia.
    + rewrite frac_retry_loop_done by exact Hlast.
      apply Qceiling_le_Z in Hlast. simpl. split.
      * do 3 f_equal. lia.
      * destruct (Qlt_le_dec (inject_Z i) (maxRetries - 1)); simpl; lia.
Qed.

Lemma frac_retry_loop_resolved
    (maxRetries : Q) (d i : Z) (last : option E) (calls : nat) (v : T) :
  (inject_Z i < maxRetries)%Q -> fn calls = Resolved v ->
  Fractional.loop fn maxRetries d i last calls
  = (Resolved v, [Utils.Invoke calls]).
Proof.
  intros Hlt Hfn.
  funelim (Fractional.loop fn maxRetries d i last calls);
    try congruence.
  exfalso. apply (Qlt_irrefl maxRetries). eapply Qle_lt_trans; eassumption.
Qed.

Lemma frac_retry_loop_rejected
    (maxRetries : Q) (d i : Z) (last : option E) (calls : nat) (e : E) :
  (inject_Z i < maxRetries)%Q -> fn calls = Rejected e ->
  Fractional.loop fn maxRetries d i last calls =
    ((Fractional.loop fn maxRetries d (i + 1) (Some e) (S calls)).1,
     Utils.Invoke calls
       :: (if Qlt_le_dec (inject_Z i) (maxRetries - 1)
           then [Utils.Sleep (d * 2 ^ i)%Z] else [])
       ++ (Fractional.loop fn maxRetries d (i + 1) (Some e) (S calls)).2).
Proof.
  intros Hlt Hfn.
  funelim (Fractional.loop fn maxRetries d i last calls);
    try congruence.
  exfalso. apply (Qlt_irrefl maxRetries). eapply Qle_lt_trans; eassumption.
Qed.

(** On a whole bound the loop is the loop of [Utils]. *)
Lemma frac_retry_loop_whole (maxRetries d i : Z) (last : option E) (calls : nat) :
  Fractional.loop fn (inject_Z maxRetries) d i last calls
  = Utils.retry_loop fn maxRetries d i last calls.
Proof.
  funelim (Utils.retry_loop fn maxRetries d i last calls).
  - apply frac_retry_loop_done. rewrite <- Zle_Qle. lia.
  - apply frac_retry_loop_resolved; [|assumption].
    rewrite <- Zlt_Qlt. assumption.
  - rewrite (frac_retry_loop_rejected _ _ _ _ _ error);
      [|rewrite <- Zlt_Qlt; assumption|assumption].
    match goal with
    | IH : Fractional.loop _ _ _ _ _ _ = _ |- _ => rewrite IH
    end.
    assert (Hpause :
              (if Qlt_le_dec (inject_Z i) (inject_Z maxRetries - 1)
               then [Utils.Sleep (initialDelay * 2 ^ i)%Z] else [])
              = (if (i <? maxRetries - 1)%Z
                 then [Utils.Sleep (initialDelay * 2 ^ i)%Z] else [])).
    { assert (Hone : (inject_Z maxRetries - 1 == inject_Z (maxRetries - 1))%Q).
      { unfold Z.sub. rewrite inject_Z_plus, inject_Z_opp. reflexivity. }
      destruct (Qlt_le_dec (inject_Z i) (inject_Z maxRetries - 1)) as [H1|H1].
      - assert (H2 : (i < maxRetries - 1)%Z)
          by (rewrite Zlt_Qlt, <- Hone; exact H1).
        apply Z.ltb_lt in H2. rewrite H2. reflexivity.
      - assert (H2 : (maxRetries - 1 <= i)%Z)
          by (rewrite Zle_Qle, <- Hone; exact H1).
        apply Z.ltb_ge in H2. rewrite H2. reflexivity. }
    rewrite Hpause. reflexivity.
Qed.

End FractionalFacts.

(** C10, as stated, fails: with [maxRetries = 2.5] and an [fn] that always
    rejects, the loop runs for [i = 0, 1, 2] and [fn] is invoked three
    times, which is more than [maxRetries]. *)
Lemma C10_fractional_maxRetries_counterexample :
  let fn : nat -> Settled unit nat := fun k => Rejected k in
  let outcome := Fractional.retryWithBackoff fn (5 # 2) 1000 in
  outcome = (Rejected (Some 2%nat),
             [Utils.Invoke 0; Utils.Sleep 1000; Utils.Invoke 1; Utils.Sleep 2000;
              Utils.Invoke 2])
  /\ Utils.invocations outcome.2 = 3%nat
  /\ (5 # 2 < inject_Z (Z.of_nat (Utils.invocations outcome.2)))%Q.
Proof. vm_compute. repeat split. Qed.

(** C10, amended.  [retryWithBackoff(fn, maxRetries, initialDelay)] invokes
    [fn] at most [maxRetries] rounded up times, so at most [maxRetries]
    times when that is a whole number, where the loop is the one of
    [Utils]; when every invocation rejects and [maxRetries] is positive it
    makes exactly that many invocations and throws the error of the last
    one; with [maxRetries = 0], or less, it makes no invocation and throws
    [undefined]. *)
Theorem C10_retryWithBackoff_bounded
    (T E : Type) (fn : nat -> Settled T E) (maxRetries : Q) (initialDelay : Z) :
  let outcome := Fractional.retryWithBackoff fn maxRetries initialDelay in
  (Z.of_nat (Utils.invocations outcome.2) <= Z.max 0 (Qceiling maxRetries))%Z
  /\ (forall count : Z,
        let whole := Fractional.retryWithBackoff fn (inject_Z count) initialDelay in
        whole = Utils.retryWithBackoff fn count initialDelay
        /\ ((0 <= count)%Z -> (Z.of_nat (Utils.invocations whole.2) <= count)%Z))
  /\ (forall err : nat -> E,
        (forall k, fn k = Rejected (err k)) ->
        (0 < maxRetries)%Q ->
        Utils.invocations outcome.2 = Z.to_nat (Qceiling maxRetries)
        /\ outcome.1
           = Rejected (Some (err (Z.to_nat (Qceiling maxRetries) - 1)%nat)))
  /\ ((maxRetries <= 0)%Q -> outcome = (Rejected None, [])).
Proof.
  intros outcome. subst outcome. unfold Fractional.retryWithBackoff.
  split; [|split; [|split]].
  - pose proof (frac_retry_loop_invocations_le fn maxRetries initialDelay 0 None 0).
    lia.
  - intros count. rewrite frac_retry_loop_whole. split; [reflexivity|]. intros Hpos.
    pose proof (retry_loop_invocations_le fn count initialDelay 0 None 0).
    lia.
  - intros err Hfn Hlt.
    destruct (frac_retry_loop_all_rejected fn err Hfn maxRetries initialDelay
                0 None 0 Hlt) as [H1 H2].
    rewrite H1, H2. rewrite Z.sub_0_r. split; reflexivity.
  - intros Hle. apply frac_retry_loop_done. exact Hle.
Qed.

(** * Properties of the request pipeline *)

Section HttpFacts.
Import Http.
Local Open Scope Z_scope.

Lemma retry_count_set_retry (req : RequestConfig) (v : Z) :
  retry_count (set_retry req v) = v.
Proof.
  unfold retry_count, init_retry, retry_falsy, set_retry; simpl.
  destruct (v =? 0) eqn:Hv; simpl; [|reflexivity].
  apply Z.eqb_eq in Hv. congruence.
Qed.

(** A counter that has been bumped is a non-zero number, and the
    interceptor's initialisation leaves such a configuration alone. *)
Lemma init_retry_id (req : RequestConfig) :
  0 < retry_count req -> init_retry req = req.
Proof.
  unfold retry_count, init_retry, retry_falsy.
  destruct (_retry req) as [v|] eqn:Hr; simpl.
  - destruct (v =? 0) eqn:Hv; simpl; [lia | reflexivity].
  - lia.
Qed.

Lemma shouldRetry_retryable (c : RequestConfig) (r : option Response) :
  shouldRetry {| config := c; response := r |} = true <-> retryable r.
Proof.
  unfold shouldRetry, retryable; simpl. destruct r as [resp|].
  - rewrite orb_true_iff, Z.leb_le, Z.eqb_eq. split.
    + intros H. right. exists resp. split; [reflexivity | exact H].
    + intros [H | (resp' & H & Hs)]; [discriminate|]. congruence.
  - split; [intros _; left; reflexivity | reflexivity].
Qed.

Lemma sent_configs_length (tr : list Effect) :
  length (sent_configs tr) = attempts tr.
Proof.
  induction tr as [|[k c|ms] tr IH]; simpl; congruence.
Qed.

Variable retries : Z.
Variable adapter : Adapter.

(** The three ways one pass through [httpClient] ends. *)
Lemma httpClient_resolved (n : nat) (req : RequestConfig) (resp : Response) :
  adapter n req = Resolved resp ->
  httpClient retries adapter n req = (Resolved resp, [Attempt n req]).
Proof.
  intros H. simp httpClient. rewrite H. reflexivity.
Qed.

Lemma httpClient_retry (n : nat) (req : RequestConfig) (r : option Response) :
  adapter n req = Rejected r ->
  retry_count req < retries ->
  retryable r ->
  httpClient retries adapter n req =
    ((httpClient retries adapter (S n) (set_retry req (retry_count req + 1))).1,
     Attempt n req :: Sleep (2 ^ (retry_count req + 1) * 1000)
       :: (httpClient retries adapter (S n) (set_retry req (retry_count req + 1))).2).
Proof.
  intros H Hlt Hr.
  funelim (httpClient retries adapter n req).
  - congruence.
  - rewrite retry_count_set_retry. reflexivity.
  - match goal with
    | Hb : andb _ _ = false |- _ =>
        destruct (proj1 (andb_false_iff _ _) Hb) as [Hb'|Hb']
    end.
    + apply Z.ltb_ge in Hb'. lia.
    + match goal with
      | H1 : adapter n req = Rejected ?a, H2 : adapter n req = Rejected ?b |- _ =>
          assert (a = b) by congruence; subst
      end.
      apply (shouldRetry_retryable (init_retry req)) in Hr. congruence.
Qed.

Lemma httpClient_rejected (n : nat) (req : RequestConfig) (r : option Response) :
  adapter n req = Rejected r ->
  retries <= retry_count req \/ ~ retryable r ->
  httpClient retries adapter n req =
    (Rejected {| config := init_retry req; response := r |}, [Attempt n req]).
Proof.
  intros H Hstop. simp httpClient. rewrite H. simpl.
  destruct (sumbool_of_bool _) as [Hb|Hb]; simpl; [|reflexivity].
  apply andb_true_iff in Hb as [Hlt Hs]. apply Z.ltb_lt in Hlt.
  apply shouldRetry_retryable in Hs. destruct Hstop; [lia | contradiction].
Qed.

Lemma httpClient_attempts_pos (n : nat) (req : RequestConfig) :
  (1 <= attempts (httpClient retries adapter n req).2)%nat.
Proof.
  funelim (httpClient retries adapter n req); simpl; lia.
Qed.

(** The interceptor does not touch the headers: a header the request
    carries on its first attempt is carried, with the same value, on every
    retry. *)
Lemma httpClient_header (name : string) (n : nat) (req : RequestConfig) :
  Forall (fun c => header name c = header name req)
    (sent_configs (httpClient retries adapter n req).2).
Proof.
  funelim (httpClient retries adapter n req); simpl.
  - constructor; [reflexivity | constructor].
  - constructor; [reflexivity|].
    match goal with
    | IH : forall _ : string, Forall _ _ |- _ => exact (IH name)
    end.
  - constructor; [reflexivity | constructor].
Qed.

(** A run starts with the attempt it was entered for. *)
Lemma httpClient_head (n : nat) (req : RequestConfig) :
  exists rest, (httpClient retries adapter n req).2 = Attempt n req :: rest.
Proof.
  funelim (httpClient retries adapter n req); simpl; eauto.
Qed.

(** The shape of a run: it starts with attempt [n] on [req]; every later
    attempt [k] is sent with the counter at [retry_count req + (k - n)] and
    comes right after a sleep of [2 ^ counter] seconds. *)
Lemma httpClient_backoff (n : nat) (req : RequestConfig) :
  forall (k : nat) (pre post : list Effect) (c : RequestConfig),
    (httpClient retries adapter n req).2 = pre ++ Attempt k c :: post ->
    (k = n /\ pre = [] /\ c = req)
    \/ ((n < k)%nat
        /\ retry_count c = retry_count req + Z.of_nat (k - n)
        /\ exists pre', pre = pre' ++ [Sleep (2 ^ retry_count c * 1000)]).
Proof.
  funelim (httpClient retries adapter n req); simpl; intros k pre post c Htr.
  - destruct pre as [|x [|y pre]]; simplify_eq/=. left. auto.
  - destruct pre as [|x pre]; simplify_eq/=; [left; auto|].
    destruct pre as [|y pre]; simplify_eq/=.
    match goal with
    | IH : forall _ _ _ _, _ -> _, Hrest : _ = pre ++ _ |- _ =>
        destruct (IH _ _ _ _ Hrest) as [(-> & -> & ->) | (Hk & Hc & pre' & ->)]
    end.
    + right. rewrite retry_count_set_retry. split; [lia|]. split; [lia|].
      exists [Attempt n req]. reflexivity.
    + right. rewrite retry_count_set_retry in Hc. split; [lia|]. split; [lia|].
      exists (Attempt n req
                :: Sleep (2 ^ retry_count (set_retry req (retry_count req + 1)) * 1000)
                :: pre').
      reflexivity.
  - destruct pre as [|x [|y pre]]; simplify_eq/=. left. auto.
Qed.

(** An attempt that fails with a retryable failure while the counter is
    below [retries] is followed by a sleep of [2 ^ (counter + 1)] seconds
    and then by the next attempt. *)
Lemma httpClient_retry_follows (n : nat) (req : RequestConfig) :
  forall (k : nat) (pre post : list Effect) (c : RequestConfig)
         (r : option Response),
    (httpClient retries adapter n req).2 = pre ++ Attempt k c :: post ->
    adapter k c = Rejected r -> retryable r -> retry_count c < retries ->
    exists c' post',
      post = Sleep (2 ^ (retry_count c + 1) * 1000) :: Attempt (S k) c' :: post'.
Proof.
  funelim (httpClient retries adapter n req); simpl;
    intros k pre post c r' Htr Hk Hr Hlt.
  - destruct pre as [|x [|y pre]]; simplify_eq/=. congruence.
  - destruct pre as [|x pre]; simplify_eq/=.
    + destruct (httpClient_head (S k) (set_retry c (retry_count c + 1)))
        as (rest & ->).
      rewrite retry_count_set_retry. eauto.
    + destruct pre as [|y pre]; simplify_eq/=.
      match goal with
      | IH : forall _ _ _ _ _, _ -> _, Hrest : _ = pre ++ _ |- _ =>
          exact (IH _ _ _ _ _ Hrest Hk Hr Hlt)
      end.
  - destruct pre as [|x [|y pre]]; simplify_eq/=.
    match goal with
    | Hb : andb _ _ = false |- _ =>
        destruct (proj1 (andb_false_iff _ _) Hb) as [Hb'|Hb']
    end.
    + apply Z.ltb_ge in Hb'. lia.
    + apply (shouldRetry_retryable (init_retry c)) in Hr. congruence.
Qed.

(** A rejected call rejects with the error of its last attempt: the
    response the adapter rejected with (if any) on the configuration that
    attempt was sent with.  A retryable error is only let through once the
    counter has reached [retries]. *)
Lemma httpClient_surfaces_last (n : nat) (req : RequestConfig) (e : AxiosError) :
  (httpClient retries adapter n req).1 = Rejected e ->
  exists (k : nat) (c : RequestConfig) (r : option Response),
    last (httpClient retries adapter n req).2 = Some (Attempt k c)
    /\ adapter k c = Rejected r
    /\ e = {| config := init_retry c; response := r |}
    /\ (retryable r -> retries <= retry_count c).
Proof.
  funelim (httpClient retries adapter n req); simpl; intros Hrej.
  - discriminate.
  - match goal with
    | IH : forall _, _ -> _ |- _ =>
        destruct (IH _ Hrej) as (k & c & r' & Hlast & Hk & He & Hstop)
    end.
    exists k, c, r'. repeat split; try assumption.
    rewrite !last_cons, Hlast. reflexivity.
  - injection Hrej as <-. exists n, req, r. repeat split; try assumption.
    intros Hr.
    match goal with
    | Hb : andb _ _ = false |- _ =>
        destruct (proj1 (andb_false_iff _ _) Hb) as [Hb'|Hb']
    end.
    + apply Z.ltb_ge in Hb'. exact Hb'.
    + apply (shouldRetry_retryable (init_retry req)) in Hr. congruence.
Qed.

(** Against a transport that fails every attempt with a retryable failure
    the call spends its whole budget: one attempt, then one retry for
    every value of the counter below [retries], with doubling sleeps. *)
Lemma httpClient_exhausts :
  (forall k c, exists r, adapter k c = Rejected r /\ retryable r) ->
  forall (n : nat) (req : RequestConfig),
    attempts (httpClient retries adapter n req).2
      = S (Z.to_nat (retries - retry_count req))
    /\ delays (httpClient retries adapter n req).2
      = map (fun j => 2 ^ j * 1000)
          (seqZ (retry_count req + 1) (retries - retry_count req))
    /\ exists e, (httpClient retries adapter n req).1 = Rejected e.
Proof.
  intros Hfail n req.
  funelim (httpClient retries adapter n req); simpl.
  - destruct (Hfail n req) as (r & Hr & _). congruence.
  - match goal with
    | IH : (forall _ _, exists _, _) -> _ |- _ =>
        destruct (IH Hfail) as (IHa & IHd & IHe)
    end.
    rewrite retry_count_set_retry in IHa, IHd |- *.
    match goal with
    | Hb : andb _ _ = true |- _ =>
        destruct (proj1 (andb_true_iff _ _) Hb) as [Hlt%Z.ltb_lt _]
    end.
    rewrite IHa, IHd. split; [|split; [|exact IHe]].
    + f_equal. lia.
    + rewrite (seqZ_cons (retry_count req + 1) (retries - retry_count req)) by lia.
      simpl. do 3 f_equal; lia.
  - destruct (Hfail n req) as (r' & Hr' & Hret).
    assert (r' = r) as -> by congruence.
    match goal with
    | Hb : andb _ _ = false |- _ =>
        destruct (proj1 (andb_false_iff _ _) Hb) as [Hb'|Hb']
    end.
    + apply Z.ltb_ge in Hb'.
      rewrite seqZ_nil by lia. simpl.
      replace (Z.to_nat (retries - retry_count req)) with 0%nat by lia.
      eauto.
    + apply (shouldRetry_retryable (init_retry req)) in Hret. congruence.
Qed.

(** Against such a transport the call ends rejected with the error of
    the attempt made when the counter had reached [retries]. *)
Lemma httpClient_exhausts_last :
  (forall k c, exists r, adapter k c = Rejected r /\ retryable r) ->
  forall (n : nat) (req : RequestConfig),
    retry_count req <= retries ->
    exists (c : RequestConfig) (r : option Response),
      last (httpClient retries adapter n req).2
        = Some (Attempt (n + Z.to_nat (retries - retry_count req))%nat c)
      /\ adapter (n + Z.to_nat (retries - retry_count req))%nat c = Rejected r
      /\ retryable r
      /\ retry_count c = retries
      /\ (httpClient retries adapter n req).1
         = Rejected {| config := init_retry c; response := r |}.
Proof.
  intros Hfail n req.
  funelim (httpClient retries adapter n req); simpl; intros Hle.
  - destruct (Hfail n req) as (r & Hr & _). congruence.
  - match goal with
    | Hb : andb _ _ = true |- _ =>
        destruct (proj1 (andb_true_iff _ _) Hb) as [Hlt%Z.ltb_lt _]
    end.
    match goal with
    | IH : (forall _ _, exists _, _) -> _ |- _ =>
        destruct (IH Hfail) as (c & r' & Hlast & Hk & Hr & Hc & Hout)
    end.
    { rewrite retry_count_set_retry. lia. }
    rewrite retry_count_set_retry in Hlast, Hk.
    replace (S n + Z.to_nat (retries - (retry_count req + 1)))%nat
      with (n + Z.to_nat (retries - retry_count req))%nat in Hlast, Hk by lia.
    exists c, r'. rewrite !last_cons, Hlast. auto.
  - destruct (Hfail n req) as (r' & Hr' & Hret).
    assert (r' = r) as -> by congruence.
    match goal with
    | Hb : andb _ _ = false |- _ =>
        destruct (proj1 (andb_false_iff _ _) Hb) as [Hb'|Hb']
    end.
    + apply Z.ltb_ge in Hb'.
      replace (Z.to_nat (retries - retry_count req)) with 0%nat by lia.
      rewrite Nat.add_0_r. exists req, r. repeat split; try assumption. lia.
    + apply (shouldRetry_retryable (init_retry req)) in Hret. congruence.
Qed.

End HttpFacts.

(** How the constructor reads [network.retries]: a number other than [0]
    is taken as it is, an absent one and [0] both give [3]. *)
Lemma interceptor_retries_read (cfg : Types.VoltnetConfig) :
  Http.interceptor_retries (Http.create_httpClient cfg) =
    match Types.network cfg with
    | Some n =>
        match Types.retries n with
        | Some r => if (r =? 0)%Z then 3%Z else r
        | None => 3%Z
        end
    | None => 3%Z
    end.
Proof.
  unfold Http.create_httpClient, or_default; simpl.
  destruct (Types.network cfg) as [n|]; simpl; [|reflexivity].
  destruct (Types.retries n); reflexivity.
Qed.

(** Against a transport that fails every attempt with a retryable failure,
    a call through the client makes one attempt more than the constant the
    interceptor captured, and then fails. *)
Lemma request_exhausts
    (cfg : Types.VoltnetConfig) (adapter : Http.Adapter)
    (m : Http.Method) (path : string) (query data : option string) :
  (forall k c, exists r, adapter k c = Rejected r /\ Http.retryable r) ->
  let inst := Http.create_httpClient cfg in
  (0 <= Http.interceptor_retries inst)%Z ->
  Z.of_nat (Http.attempts (Http.request inst adapter m path query data).2)
    = (Http.interceptor_retries inst + 1)%Z
  /\ exists e, (Http.request inst adapter m path query data).1 = Rejected e.
Proof.
  intros Hfail inst Hpos. unfold Http.request.
  destruct (httpClient_exhausts (Http.interceptor_retries inst) adapter Hfail
              0%nat (Http.request_config inst m path query data))
    as (Ha & _ & He).
  rewrite Ha. split; [|exact He].
  change (Http.retry_count (Http.request_config inst m path query data)) with 0%Z.
  lia.
Qed.

(** C1.  When an attempt fails, the pipeline makes a further attempt if and
    only if the failure is retryable (no response at all, or a response
    with status 500 or more, or 429), as long as the call's counter is
    below the configured maximum; any other failure ends the call at that
    attempt, rejected with that attempt's error.  In particular a 4xx
    status other than 429 is surfaced after exactly one attempt. *)
Theorem C1_retry_iff_retryable
    (retries : Z) (adapter : Http.Adapter) (n : nat)
    (req : Http.RequestConfig) (r : option Http.Response) :
  adapter n req = Rejected r ->
  let out := Http.httpClient retries adapter n req in
  let error := {| Http.config := Http.init_retry req; Http.response := r |} in
  ((Http.retry_count req < retries)%Z ->
     ((1 < Http.attempts out.2)%nat <-> Http.retryable r))
  /\ (~ Http.retryable r -> out = (Rejected error, [Http.Attempt n req]))
  /\ (forall resp, r = Some resp ->
        (400 <= Http.status resp < 500)%Z -> Http.status resp <> 429%Z ->
        Http.attempts out.2 = 1%nat /\ out.1 = Rejected error).
Proof.
  intros Hfail out error. subst out error.
  assert (Hstop : ~ Http.retryable r ->
            Http.httpClient retries adapter n req
            = (Rejected {| Http.config := Http.init_retry req; Http.response := r |},
               [Http.Attempt n req])).
  { intros Hr. apply httpClient_rejected; [exact Hfail | right; exact Hr]. }
  split; [|split].
  - intros Hbudget. split.
    + intros Hmore. destruct r as [resp|]; [|left; reflexivity].
      destruct (Z_le_dec 500%Z (Http.status resp)) as [H500|H500];
        [right; eauto|].
      destruct (Z.eq_dec (Http.status resp) 429%Z) as [H429|H429];
        [right; eauto|].
      rewrite Hstop in Hmore; [simpl in Hmore; lia|].
      intros [Hn | (resp' & Heq & Hs)]; [discriminate|].
      injection Heq as <-. lia.
    + intros Hr.
      rewrite (httpClient_retry retries adapter n req r Hfail Hbudget Hr). simpl.
      pose proof (httpClient_attempts_pos retries adapter (S n)
                    (Http.set_retry req (Http.retry_count req + 1))).
      lia.
  - exact Hstop.
  - intros resp -> Hrange Hnot.
    rewrite Hstop; [split; reflexivity|].
    intros [Hn | (resp' & Heq & Hs)]; [discriminate|].
    injection Heq as <-. lia.
Qed.

Lemma C1_retry_iff_retryable_witness :
  let r := Some Examples.unavailable in
  let out := Http.httpClient 3 Examples.flaky 0 Examples.sample_request in
  let error := {| Http.config := Http.init_retry Examples.sample_request;
                  Http.response := r |} in
  ((Http.retry_count Examples.sample_request < 3)%Z ->
     ((1 < Http.attempts out.2)%nat <-> Http.retryable r))
  /\ (~ Http.retryable r ->
        out = (Rejected error, [Http.Attempt 0 Examples.sample_request]))
  /\ (forall resp, r = Some resp ->
        (400 <= Http.status resp < 500)%Z -> Http.status resp <> 429%Z ->
        Http.attempts out.2 = 1%nat /\ out.1 = Rejected error).
Proof.
  apply (C1_retry_iff_retryable 3 Examples.flaky 0 Examples.sample_request
           (Some Examples.unavailable)).
  reflexivity.
Defined.

(** C2.  With [network.retries] set to [0] the interceptor takes the
    default: [retries || 3] reads the falsy [0] as absent.  Against a
    transport that never gets a response the call therefore makes four
    attempts (sleeping 2 s, 4 s and 8 s) before it fails, not one. *)
Theorem C2_zero_retries_makes_four_attempts
    (url key pid : string) (tmo : option Z) (realtime : option bool)
    (m : Http.Method) (path : string) (query data : option string) :
  let cfg := {| Types.apiUrl := url; Types.apiKey := key;
                Types.participantId := pid;
                Types.network := Some {| Types.timeout := tmo;
                                         Types.retries := Some 0%Z |};
                Types.enableRealtime := realtime |} in
  let out := Http.request (Http.create_httpClient cfg)
               (fun _ _ => Rejected None) m path query data in
  Http.interceptor_retries (Http.create_httpClient cfg) = 3%Z
  /\ Http.attempts out.2 = 4%nat
  /\ Http.delays out.2 = [2000; 4000; 8000]%Z
  /\ exists e, out.1 = Rejected e.
Proof.
  intros cfg out. subst out. unfold Http.request.
  split; [reflexivity|].
  destruct (httpClient_exhausts (Http.interceptor_retries (Http.create_httpClient cfg))
              (fun _ _ => Rejected None)
              (fun _ _ => ex_intro _ None (conj eq_refl (or_introl eq_refl)))
              0%nat (Http.request_config (Http.create_httpClient cfg) m path query data))
    as (Ha & Hd & He).
  rewrite Ha, Hd. repeat split; [exact He].
Qed.

(** C3.  Every call starts with an attempt.  An attempt that fails with a
    retryable failure while retries are left is followed by a sleep and
    the next attempt, and the attempt made as retry [n] (the first retry
    is the call's second attempt) comes right after a sleep of [2^n]
    seconds: the second attempt waits 2 s, the third 4 s.  A call that
    ends rejected rejects with the error of its last attempt, carrying
    that attempt's response and configuration.  Against a transport that
    fails every attempt with a retryable failure the call sleeps 2 s,
    4 s, ... [2^retries] s between its [retries + 1] attempts and is then
    rejected with the error of the last of them, as that attempt built
    it. *)
Theorem C3_backoff_and_last_failure
    (inst : Http.AxiosInstance) (adapter : Http.Adapter)
    (m : Http.Method) (path : string) (query data : option string) :
  let out := Http.request inst adapter m path query data in
  let retries := Http.interceptor_retries inst in
  (exists rest,
      out.2 = Http.Attempt 0 (Http.request_config inst m path query data) :: rest)
  /\ (forall (n : nat) pre c post r,
        out.2 = pre ++ Http.Attempt n c :: post ->
        adapter n c = Rejected r -> Http.retryable r ->
        (Z.of_nat n < retries)%Z ->
        exists c' post',
          post = Http.Sleep (2 ^ Z.of_nat (S n) * 1000)%Z
                   :: Http.Attempt (S n) c' :: post')
  /\ (forall (n : nat) pre c post,
        out.2 = pre ++ Http.Attempt n c :: post -> (0 < n)%nat ->
        exists pre', pre = pre' ++ [Http.Sleep (2 ^ Z.of_nat n * 1000)%Z])
  /\ (forall pre c post,
        out.2 = pre ++ Http.Attempt 1 c :: post ->
        exists pre', pre = pre' ++ [Http.Sleep 2000%Z])
  /\ (forall pre c post,
        out.2 = pre ++ Http.Attempt 2 c :: post ->
        exists pre', pre = pre' ++ [Http.Sleep 4000%Z])
  /\ (forall e, out.1 = Rejected e ->
        exists (k : nat) (c : Http.RequestConfig) (r : option Http.Response),
          last out.2 = Some (Http.Attempt k c)
          /\ adapter k c = Rejected r
          /\ Http.response e = r
          /\ Http.config e = Http.init_retry c
          /\ (Http.retryable r -> (0 < retries)%Z ->
              e = {| Http.config := c; Http.response := r |}))
  /\ ((forall k c, exists r, adapter k c = Rejected r /\ Http.retryable r) ->
      (0 < retries)%Z ->
      Http.attempts out.2 = S (Z.to_nat retries)
      /\ Http.delays out.2 = map (fun j => 2 ^ j * 1000)%Z (seqZ 1 retries)
      /\ exists (c : Http.RequestConfig) (r : option Http.Response),
           last out.2 = Some (Http.Attempt (Z.to_nat retries) c)
           /\ adapter (Z.to_nat retries) c = Rejected r
           /\ out.1 = Rejected {| Http.config := c; Http.response := r |}).
Proof.
  intros out retries. subst out retries. unfold Http.request.
  set (retries := Http.interceptor_retries inst).
  set (req := Http.request_config inst m path query data).
  assert (Hcount : forall (n : nat) pre c post,
            (Http.httpClient retries adapter 0 req).2
              = pre ++ Http.Attempt n c :: post ->
            Http.retry_count c = Z.of_nat n).
  { intros n pre c post Htr.
    destruct (httpClient_backoff retries adapter 0 req n pre post c Htr)
      as [(-> & _ & ->) | (_ & Hc & _)]; [reflexivity|].
    rewrite Hc. change (Http.retry_count req) with 0%Z. lia. }
  assert (Hgen : forall (n : nat) pre c post,
            (Http.httpClient retries adapter 0 req).2
              = pre ++ Http.Attempt n c :: post -> (0 < n)%nat ->
            exists pre', pre = pre' ++ [Http.Sleep (2 ^ Z.of_nat n * 1000)%Z]).
  { intros n pre c post Htr Hn.
    destruct (httpClient_backoff retries adapter 0 req n pre post c Htr)
      as [(-> & _) | (_ & Hc & pre' & ->)]; [lia|].
    exists pre'. rewrite Hc. replace (n - 0)%nat with n by lia. reflexivity. }
  split; [apply httpClient_head|].
  split; [|split; [exact Hgen|split; [|split; [|split]]]].
  - intros n pre c post r Htr Hk Hr Hlt.
    pose proof (Hcount n pre c post Htr) as Hc.
    destruct (httpClient_retry_follows retries adapter 0 req n pre post c r
                Htr Hk Hr ltac:(lia)) as (c' & post' & ->).
    exists c', post'. rewrite Hc. do 3 f_equal. lia.
  - intros pre c post Htr. apply (Hgen 1%nat pre c post Htr). lia.
  - intros pre c post Htr. apply (Hgen 2%nat pre c post Htr). lia.
  - intros e Hrej.
    destruct (httpClient_surfaces_last retries adapter 0 req e Hrej)
      as (k & c & r & Hlast & Hk & -> & Hstop).
    exists k, c, r. repeat split; try assumption.
    intros Hr Hpos. rewrite init_retry_id; [reflexivity|].
    specialize (Hstop Hr). lia.
  - intros Hfail Hpos.
    destruct (httpClient_exhausts retries adapter Hfail 0%nat req)
      as (Ha & Hd & _).
    change (Http.retry_count req) with 0%Z in Ha, Hd.
    rewrite Z.sub_0_r in Ha, Hd.
    split; [exact Ha|]. split; [exact Hd|].
    destruct (httpClient_exhausts_last retries adapter Hfail 0%nat req)
      as (c & r & Hlast & Hk & _ & Hc & Hout).
    { change (Http.retry_count req) with 0%Z. lia. }
    change (Http.retry_count req) with 0%Z in Hlast, Hk.
    rewrite Z.sub_0_r in Hlast, Hk. simpl in Hlast, Hk.
    exists c, r. split; [exact Hlast|]. split; [exact Hk|].
    rewrite Hout, init_retry_id; [reflexivity | lia].
Qed.

Lemma C3_backoff_and_last_failure_witness :
  let adapter : Http.Adapter := fun _ _ => Rejected (Some Examples.unavailable) in
  let out := Http.request (Http.create_httpClient Examples.sample_config)
               adapter Http.GET "/participants/participant-1" None None in
  Http.attempts out.2 = 4%nat
  /\ Http.delays out.2 = [2000; 4000; 8000]%Z
  /\ exists (c : Http.RequestConfig) (r : option Http.Response),
       last out.2 = Some (Http.Attempt 3 c)
       /\ adapter 3%nat c = Rejected r
       /\ out.1 = Rejected {| Http.config := c; Http.response := r |}.
Proof.
  apply (C3_backoff_and_last_failure
           (Http.create_httpClient Examples.sample_config)
           (fun _ _ => Rejected (Some Examples.unavailable))
           Http.GET "/participants/participant-1" None None).
  - intros k c. exists (Some Examples.unavailable). split; [reflexivity|].
    right. exists Examples.unavailable. split; [reflexivity|].
    left. simpl. lia.
  - simpl. lia.
Defined.

(** C8, as stated, fails: the requests of a call carry a fourth header,
    the [Accept] header axios sets on every request, next to the three of
    the constructor; so they do not carry exactly those three. *)
Lemma C8_fourth_header_counterexample :
  let out := Http.request (Http.create_httpClient Examples.sample_config)
               Examples.flaky Http.GET "/participants/participant-1" None None in
  map Http.headers (Http.sent_configs out.2)
  = [ [ ("Accept", "application/json, text/plain, */*");
        ("Authorization", "Bearer key-1");
        ("Content-Type", "application/json");
        ("X-Participant-Id", "participant-1") ];
      [ ("Accept", "application/json, text/plain, */*");
        ("Authorization", "Bearer key-1");
        ("Content-Type", "application/json");
        ("X-Participant-Id", "participant-1") ] ]
  /\ map (Http.header "Accept") (Http.sent_configs out.2)
     = [ Some "application/json, text/plain, */*";
         Some "application/json, text/plain, */*" ].
Proof. vm_compute. split; reflexivity. Qed.

(** C8, amended.  Every attempt of every call made through the client's
    pipeline, retries included, carries the three headers fixed by the
    constructor, with the constructor's values: [Authorization: Bearer
    <apiKey>], [Content-Type: application/json] and [X-Participant-Id:
    <participantId>]; the values depend on the configuration only, not on
    the call.  (They are not the only headers a request carries.) *)
Theorem C8_fixed_headers
    (cfg : Types.VoltnetConfig) (adapter : Http.Adapter)
    (m : Http.Method) (path : string) (query data : option string) :
  let out := Http.request (Http.create_httpClient cfg) adapter m path query data in
  Forall (fun sent =>
            Http.header "Authorization" sent
              = Some ("Bearer " +:+ Types.apiKey cfg)
            /\ Http.header "Content-Type" sent = Some "application/json"
            /\ Http.header "X-Participant-Id" sent
               = Some (Types.participantId cfg))
    (Http.sent_configs out.2)
  /\ (1 <= length (Http.sent_configs out.2))%nat.
Proof.
  intros out. subst out. unfold Http.request.
  set (retries := Http.interceptor_retries (Http.create_httpClient cfg)).
  set (req := Http.request_config (Http.create_httpClient cfg) m path query data).
  split.
  - pose proof (httpClient_header retries adapter "Authorization" 0 req) as H1.
    pose proof (httpClient_header retries adapter "Content-Type" 0 req) as H2.
    pose proof (httpClient_header retries adapter "X-Participant-Id" 0 req) as H3.
    rewrite Forall_forall in H1, H2, H3. apply Forall_forall.
    intros sent Hin.
    rewrite (H1 sent Hin), (H2 sent Hin), (H3 sent Hin).
    repeat split.
  - rewrite sent_configs_length. apply httpClient_attempts_pos.
Qed.

(** * Properties of the realtime channel *)

Section EmitterFacts.
Import Emitter.

(** Listeners that all return are all called, in order. *)
Lemma call_listeners_all_return (ls : list Listener) (payload : Js.Value) :
  Forall (fun h => fn h payload = None) ls ->
  call_listeners ls payload = (Js.Normal, map (call_of payload) ls).
Proof.
  induction 1 as [|h ls Hh _ IH]; simpl; [reflexivity|].
  rewrite Hh, IH. reflexivity.
Qed.

(** The loop ends at the first listener that throws. *)
Lemma call_listeners_first_throw
    (before after : list Listener) (l : Listener) (payload exn : Js.Value) :
  Forall (fun h => fn h payload = None) before ->
  fn l payload = Some exn ->
  call_listeners (before ++ l :: after) payload
  = (Js.Throw exn, map (call_of payload) (before ++ [l])).
Proof.
  intros Hbefore Hl.
  induction Hbefore as [|h ls Hh _ IH]; simpl.
  - rewrite Hl. reflexivity.
  - rewrite Hh, IH. reflexivity.
Qed.

End EmitterFacts.

Section ChannelFacts.
Import Types Channel.

Lemma same_channel_refl (s : State) : same_channel s s.
Proof. repeat split. Qed.

Lemma same_channel_trans (s1 s2 s3 : State) :
  same_channel s1 s2 -> same_channel s2 s3 -> same_channel s1 s3.
Proof.
  unfold same_channel. intros (?&?&?&?&?) (?&?&?&?&?).
  repeat split; congruence.
Qed.

Lemma same_channel_print (s : State) (line : Console) :
  same_channel s (print s line).
Proof. repeat split. Qed.

Lemma same_channel_emit (s : State) (event : string) (payload : Js.Value) :
  same_channel s (emit s event payload).2.
Proof. repeat split. Qed.

Lemma same_channel_deliver (s : State) (r : Js.Completion * State) :
  same_channel s r.2 -> same_channel s (deliver r).
Proof.
  intros H. unfold deliver. destruct r.1; [exact H|].
  eapply same_channel_trans; [exact H | apply same_channel_print].
Qed.

Lemma same_channel_handleWebSocketMessage (s : State) (data : Js.Value) :
  same_channel s (handleWebSocketMessage s data).2.
Proof.
  unfold handleWebSocketMessage.
  destruct data; simpl; try apply same_channel_refl;
    repeat match goal with
      | |- context [match ?x with _ => _ end] => destruct x
      end;
    first [apply same_channel_emit | apply same_channel_print
          | apply same_channel_refl].
Qed.

Lemma same_channel_onmessage (s : State) (d : FrameData) :
  same_channel s (onmessage s d).2.
Proof.
  unfold onmessage. destruct d as [|data]; simpl; [apply same_channel_print|].
  pose proof (same_channel_handleWebSocketMessage s data) as H.
  destruct (handleWebSocketMessage s data) as [[|exn] s']; simpl in *;
    [exact H|].
  eapply same_channel_trans; [exact H | apply same_channel_print].
Qed.

Lemma same_channel_onerror (s : State) : same_channel s (onerror s).2.
Proof. repeat split. Qed.

Lemma alive_same_channel (s s' : State) :
  same_channel s s' -> alive s -> alive s'.
Proof.
  intros (_ & _ & _ & Hs & Ht). unfold alive. rewrite Hs, Ht. auto.
Qed.

Lemma terminal_alive (s : State) : terminal s = false <-> alive s.
Proof.
  unfold terminal, alive. rewrite andb_false_iff. split.
  - intros [Hs | Ht].
    + left. induction (sockets s) as [|st l IH]; simpl in Hs; [discriminate|].
      apply andb_false_iff in Hs as [Hs|Hs].
      * exists 0%nat, st. auto.
      * destruct (IH Hs) as (k & st' & Hk & Hc). exists (S k), st'. auto.
    + right. apply bool_decide_eq_false in Ht. exact Ht.
  - intros [(k & st & Hk & Hc) | Ht].
    + left. revert k Hk. induction (sockets s) as [|st' l IH]; intros k Hk.
      * destruct k; discriminate.
      * simpl. apply andb_false_iff. destruct k as [|k]; simpl in Hk.
        -- left. congruence.
        -- right. eapply IH, Hk.
    + right. apply bool_decide_eq_false. exact Ht.
Qed.

(** A frame that does not decode, or whose kind is none of the routed
    ones, leaves [onmessage] with one diagnostic line and nothing else. *)
Lemma onmessage_unroutable (s : State) (d : FrameData) :
  (forall kind, frame_kind d = Some kind -> ~ In kind recognized) ->
  exists line, onmessage s d = (Js.Normal, print s line) /\ diagnostic line = true.
Proof.
  intros Hkind. destruct d as [|data]; simpl.
  - eexists. split; reflexivity.
  - destruct data as [| |b|z|str|xs|fields]; simpl;
      try (eexists; split; reflexivity).
    simpl in Hkind.
    destruct (Js.assoc "type" fields) as [| |b|z|t|xs|fs];
      try (eexists; split; reflexivity).
    specialize (Hkind t eq_refl). unfold recognized in Hkind. simpl in Hkind.
    repeat match goal with
      | |- context [String.eqb t ?k] =>
          let E := fresh "E" in
          destruct (String.eqb t k) eqn:E;
          [apply String.eqb_eq in E; exfalso; apply Hkind; rewrite E; tauto|]
      end.
    eexists. split; reflexivity.
Qed.

Section Steps.
Variable accepts : string -> bool.

Lemma step_config (s : State) (ev : Event) :
  config (step accepts s ev) = config s.
Proof.
  destruct ev as [k|k d|k failed|i|event l| |k]; simpl.
  - destruct (sockets s !! k) as [[| | |]|]; reflexivity.
  - destruct (sockets s !! k) as [[| | |]|]; try reflexivity.
    apply same_channel_deliver, same_channel_onmessage.
  - destruct (sockets s !! k) as [[| | |]|]; try reflexivity;
      destruct failed; simpl;
      repeat match goal with
        | |- context [deliver ?r] =>
            unfold deliver; destruct (r.1); simpl
        end; reflexivity.
  - destruct (timers s !! i); [|reflexivity].
    unfold initializeWebSocket. simpl. destruct (accepts _); reflexivity.
  - reflexivity.
  - unfold disconnect. destruct (wsConnection s) as [k|]; [|reflexivity].
    unfold close. destruct (sockets s !! k) as [[| | |]|]; reflexivity.
  - destruct (sockets s !! k) as [[| | |]|]; try reflexivity;
      apply same_channel_deliver, same_channel_onerror.
Qed.

(** Closing a socket that was not closed yet runs [onclose], which adds
    one timer of 5000 ms and touches no other timer. *)
Lemma step_closed_schedules (s : State) (k : nat) (st : ReadyState) (failed : bool) :
  sockets s !! k = Some st -> is_closed st = false ->
  timers (step accepts s (SocketClosed k failed)) = timers s ++ [5000%Z].
Proof.
  intros Hk Hst. simpl. rewrite Hk.
  destruct st; try discriminate; destruct failed; simpl;
    repeat match goal with
      | |- context [deliver ?r] => unfold deliver; destruct (r.1); simpl
      end; reflexivity.
Qed.

(** An [error] event runs [onerror] only: it logs, tells the [error]
    listeners, and leaves the sockets and the timers as they were. *)
Lemma step_error_same_channel (s : State) (k : nat) :
  same_channel s (step accepts s (SocketError k)).
Proof.
  simpl. destruct (sockets s !! k) as [[| | |]|];
    try apply same_channel_refl;
    apply same_channel_deliver, same_channel_onerror.
Qed.

(** A timer that fires runs [initializeWebSocket]: with an address the
    constructor takes, a new socket starts connecting and becomes the
    client's connection. *)
Lemma step_timer_reconnects (s : State) (i : nat) (t : Z) :
  timers s !! i = Some t ->
  accepts (wsUrl (config s)) = true ->
  sockets (step accepts s (TimerFired i)) = sockets s ++ [CONNECTING]
  /\ wsConnection (step accepts s (TimerFired i)) = Some (length (sockets s))
  /\ timers (step accepts s (TimerFired i)) = delete i (timers s).
Proof.
  intros Hi Hok. simpl. rewrite Hi. unfold initializeWebSocket. simpl.
  rewrite Hok. simpl. auto.
Qed.

Lemma alive_insert (s : State) (k : nat) (st : ReadyState) (l : list ReadyState) :
  (k < length l)%nat -> is_closed st = false ->
  sockets s = <[k := st]> l -> alive s.
Proof.
  intros Hk Hst Hs. left. exists k, st. split; [|exact Hst].
  rewrite Hs. apply list_lookup_insert_eq. exact Hk.
Qed.

Lemma step_alive (s : State) (ev : Event) :
  accepts (wsUrl (config s)) = true -> alive s -> alive (step accepts s ev).
Proof.
  intros Hok Halive.
  destruct ev as [k|k d|k failed|i|event l| |k].
  - simpl. destruct (sockets s !! k) as [st|] eqn:Hk; [|exact Halive].
    destruct st; try exact Halive.
    apply lookup_lt_Some in Hk.
    eapply alive_insert with (k := k) (st := OPEN); [exact Hk | reflexivity|].
    reflexivity.
  - simpl. destruct (sockets s !! k) as [[| | |]|]; try exact Halive.
    eapply alive_same_channel; [|exact Halive].
    apply same_channel_deliver, same_channel_onmessage.
  - destruct (sockets s !! k) as [st|] eqn:Hk;
      [|simpl; rewrite Hk; exact Halive].
    destruct (is_closed st) eqn:Hst.
    + destruct st; try discriminate. simpl. rewrite Hk. exact Halive.
    + right. rewrite (step_closed_schedules s k st failed Hk Hst).
      intros Hnil. apply app_eq_nil in Hnil as [_ Hnil]. discriminate.
  - destruct (timers s !! i) as [t|] eqn:Hi; [|simpl; rewrite Hi; exact Halive].
    destruct (step_timer_reconnects s i t Hi Hok) as (Hs & _ & _).
    left. exists (length (sockets s)), CONNECTING. split; [|reflexivity].
    rewrite Hs. apply list_lookup_middle. reflexivity.
  - exact Halive.
  - simpl. unfold disconnect.
    destruct (wsConnection s) as [k|]; [|exact Halive].
    unfold close. destruct (sockets s !! k) as [st|] eqn:Hk; [|exact Halive].
    apply lookup_lt_Some in Hk.
    destruct st; try exact Halive;
      (eapply alive_insert with (k := k) (st := CLOSING);
       [exact Hk | reflexivity | reflexivity]).
  - simpl. destruct (sockets s !! k) as [[| | |]|]; try exact Halive;
      (eapply alive_same_channel; [|exact Halive];
       apply same_channel_deliver, same_channel_onerror).
Qed.

Lemma step_timers_5000 (s : State) (ev : Event) :
  Forall (fun t => t = 5000%Z) (timers s) ->
  Forall (fun t => t = 5000%Z) (timers (step accepts s ev)).
Proof.
  intros Ht.
  destruct ev as [k|k d|k failed|i|event l| |k].
  - simpl. destruct (sockets s !! k) as [[| | |]|]; exact Ht.
  - simpl. destruct (sockets s !! k) as [[| | |]|]; try exact Ht.
    destruct (same_channel_deliver s (onmessage s d)
                (same_channel_onmessage s d)) as (_ & _ & _ & _ & ->).
    exact Ht.
  - destruct (sockets s !! k) as [st|] eqn:Hk;
      [|simpl; rewrite Hk; exact Ht].
    destruct (is_closed st) eqn:Hst.
    + destruct st; try discriminate. simpl. rewrite Hk. exact Ht.
    + rewrite (step_closed_schedules s k st failed Hk Hst).
      apply Forall_app. split; [exact Ht | repeat constructor].
  - simpl. destruct (timers s !! i); [|exact Ht].
    unfold initializeWebSocket. simpl.
    destruct (accepts _); simpl; apply Forall_delete, Ht.
  - exact Ht.
  - simpl. unfold disconnect.
    destruct (wsConnection s) as [k|]; [|exact Ht].
    unfold close. destruct (sockets s !! k) as [[| | |]|]; exact Ht.
  - simpl. destruct (sockets s !! k) as [[| | |]|]; try exact Ht;
      destruct (same_channel_deliver s (onerror s)
                  (same_channel_onerror s)) as (_ & _ & _ & _ & ->);
      exact Ht.
Qed.

(** Along any run of a client whose address the constructor takes, the
    channel stays alive and every pending timer is a 5000 ms one. *)
Lemma run_alive (evs : list Event) (s : State) :
  accepts (wsUrl (config s)) = true ->
  alive s -> Forall (fun t => t = 5000%Z) (timers s) ->
  alive (run accepts s evs)
  /\ Forall (fun t => t = 5000%Z) (timers (run accepts s evs))
  /\ config (run accepts s evs) = config s.
Proof.
  revert s. induction evs as [|ev evs IH]; intros s Hok Ha Ht; simpl.
  - auto.
  - destruct (IH (step accepts s ev)) as (IHa & IHt & IHc).
    + rewrite step_config. exact Hok.
    + apply step_alive; assumption.
    + apply step_timers_5000. exact Ht.
    + rewrite step_config in IHc. auto.
Qed.

(** What [disconnect()] does and does not do. *)
Lemma disconnect_clears_registry (s : State) (event : string) (payload : Js.Value) :
  wsConnection (disconnect s) = None
  /\ _events (disconnect s) = ∅
  /\ emit (disconnect s) event payload
     = (Js.Normal, record_calls (disconnect s) []).
Proof.
  unfold disconnect, emit, Emitter.emit, Emitter.removeAllListeners.
  destruct (wsConnection s) as [k|] eqn:Hw; simpl;
    rewrite ?Hw, ?lookup_empty; auto.
Qed.

Lemma disconnect_keeps_timers (s : State) :
  timers (disconnect s) = timers s.
Proof.
  unfold disconnect. destruct (wsConnection s) as [k|]; [|reflexivity].
  unfold close. destruct (sockets s !! k) as [[| | |]|]; reflexivity.
Qed.

End Steps.

End ChannelFacts.

(** C4, as stated, fails: with a throwing listener registered before a
    returning one on [measurement], a dispatch of [measurement] calls the
    first only and raises its exception to the caller of [emit]; the
    second listener is not invoked for that frame. *)
Lemma C4_isolation_counterexample :
  Channel._events Examples.listening !! "measurement"
    = Some [Examples.thrower 1; Examples.quiet 2]
  /\ Emitter.emit (Channel._events Examples.listening) "measurement" Examples.reading
     = (Js.Throw Examples.boom,
        [Emitter.call_of Examples.reading (Examples.thrower 1)])
  /\ Channel.invoked
       (Channel.step Examples.accept_all Examples.listening
          (Channel.SocketMessage 0
             (Channel.Decoded (Examples.frame "measurement" Examples.reading))))
     = [{| Emitter.callee := 1; Emitter.argument := Examples.reading |}].
Proof. vm_compute. repeat split. Qed.

(** C4, amended.  In a dispatch the listeners are called in subscription
    order up to the first one that throws: the listeners registered after
    it are not called, and [emit] and [handleWebSocketMessage] raise its
    exception.  When the dispatch is made for an inbound frame,
    [onmessage] catches the exception and logs it, and itself returns
    normally. *)
Theorem C4_dispatch_stops_at_first_throw
    (s : Channel.State) (event : string) (payload exn : Js.Value)
    (before after : list Emitter.Listener) (l : Emitter.Listener) :
  Channel._events s !! event = Some (before ++ l :: after) ->
  Forall (fun h => Emitter.fn h payload = None) before ->
  Emitter.fn l payload = Some exn ->
  In event Channel.recognized ->
  let calls := map (Emitter.call_of payload) (before ++ [l]) in
  let data := Examples.frame event payload in
  Emitter.emit (Channel._events s) event payload = (Js.Throw exn, calls)
  /\ Channel.handleWebSocketMessage s data
     = (Js.Throw exn, Channel.record_calls s calls)
  /\ Channel.onmessage s (Channel.Decoded data)
     = (Js.Normal,
        Channel.print (Channel.record_calls s calls)
          (Channel.Error "[VOLTNET] Failed to parse WebSocket message:" exn)).
Proof.
  intros Hreg Hbefore Hl Hin calls data.
  assert (Hemit : Emitter.emit (Channel._events s) event payload
                  = (Js.Throw exn, calls)).
  { unfold Emitter.emit. rewrite Hreg.
    apply call_listeners_first_throw; assumption. }
  assert (Hhandle : Channel.handleWebSocketMessage s data
                    = (Js.Throw exn, Channel.record_calls s calls)).
  { unfold Channel.recognized in Hin. simpl in Hin.
    destruct Hin as [<-|[<-|[<-|[<-|[<-|[<-|[]]]]]]];
      unfold Channel.handleWebSocketMessage, Channel.emit; simpl;
      rewrite Hemit; reflexivity. }
  split; [exact Hemit|]. split; [exact Hhandle|].
  unfold Channel.onmessage. rewrite Hhandle. reflexivity.
Qed.

Lemma C4_dispatch_stops_at_first_throw_witness :
  let s := Examples.listening in
  let calls := map (Emitter.call_of Examples.reading) ([] ++ [Examples.thrower 1]) in
  let data := Examples.frame "measurement" Examples.reading in
  Emitter.emit (Channel._events s) "measurement" Examples.reading
    = (Js.Throw Examples.boom, calls)
  /\ Channel.handleWebSocketMessage s data
     = (Js.Throw Examples.boom, Channel.record_calls s calls)
  /\ Channel.onmessage s (Channel.Decoded data)
     = (Js.Normal,
        Channel.print (Channel.record_calls s calls)
          (Channel.Error "[VOLTNET] Failed to parse WebSocket message:"
             Examples.boom)).
Proof.
  apply (C4_dispatch_stops_at_first_throw Examples.listening "measurement"
           Examples.reading Examples.boom [] [Examples.quiet 2]
           (Examples.thrower 1)).
  - vm_compute. reflexivity.
  - constructor.
  - reflexivity.
  - simpl. auto.
Defined.

(** C5.  After [disconnect()] the channel reconnects all the same.  The
    socket closed by [disconnect()] still carries its [onclose] handler:
    when the runtime reports it closed, a 5000 ms timer is set, and when
    that fires a new socket starts connecting and becomes the client's
    connection.  A timer already pending when [disconnect()] is called is
    left pending. *)
Theorem C5_disconnect_does_not_stop_reconnecting :
  let connected :=
    Channel.run Examples.accept_all
      (Channel.new_VoltnetClient Examples.accept_all Examples.sample_config)
      [Channel.SocketOpened 0] in
  let closed :=
    Channel.run Examples.accept_all connected
      [Channel.Disconnect; Channel.SocketClosed 0 false] in
  let later := Channel.step Examples.accept_all closed (Channel.TimerFired 0) in
  let waiting :=
    Channel.run Examples.accept_all connected [Channel.SocketClosed 0 true] in
  Channel.timers closed = [5000%Z]
  /\ Channel.sockets later = [Channel.CLOSED; Channel.CONNECTING]
  /\ Channel.wsConnection later = Some 1%nat
  /\ Channel.timers waiting = [5000%Z]
  /\ Channel.timers (Channel.disconnect waiting) = [5000%Z].
Proof. vm_compute. repeat split. Qed.

(** C6.  A frame that fails to decode, or whose kind is not one of
    [measurement], [transaction], [settlement], [offer], [price-update],
    [balance-update], is dropped: [onmessage] returns normally having
    written one [console.warn] or [console.error] line; no listener is
    called, and the client's connection, the sockets' states, the timers
    and the registry are as before. *)
Theorem C6_unroutable_frames_are_dropped
    (accepts : string -> bool) (s : Channel.State) (k : nat)
    (d : Channel.FrameData) :
  (forall kind, Channel.frame_kind d = Some kind -> ~ In kind Channel.recognized) ->
  let s' := Channel.step accepts s (Channel.SocketMessage k d) in
  (exists line,
      Channel.onmessage s d = (Js.Normal, Channel.print s line)
      /\ Channel.diagnostic line = true)
  /\ (Channel.sockets s !! k = Some Channel.OPEN ->
      exists line, s' = Channel.print s line /\ Channel.diagnostic line = true)
  /\ Channel.invoked s' = Channel.invoked s
  /\ Channel.sockets s' = Channel.sockets s
  /\ Channel.wsConnection s' = Channel.wsConnection s
  /\ Channel.timers s' = Channel.timers s
  /\ Channel._events s' = Channel._events s.
Proof.
  intros Hkind s'. subst s'.
  destruct (onmessage_unroutable s d Hkind) as (line & Hon & Hdiag).
  split; [eauto|]. simpl.
  destruct (Channel.sockets s !! k) as [[| | |]|]; simpl;
    try (split; [discriminate | repeat split]).
  rewrite Hon. unfold Channel.deliver. simpl.
  split; [eauto | repeat split].
Qed.

Lemma C6_unroutable_frames_are_dropped_witness :
  let s := Examples.listening in
  let d := Channel.Decoded (Examples.frame "heartbeat" Examples.reading) in
  let s' := Channel.step Examples.accept_all s (Channel.SocketMessage 0 d) in
  (exists line,
      Channel.onmessage s d = (Js.Normal, Channel.print s line)
      /\ Channel.diagnostic line = true)
  /\ (Channel.sockets s !! 0%nat = Some Channel.OPEN ->
      exists line, s' = Channel.print s line /\ Channel.diagnostic line = true)
  /\ Channel.invoked s' = Channel.invoked s
  /\ Channel.sockets s' = Channel.sockets s
  /\ Channel.wsConnection s' = Channel.wsConnection s
  /\ Channel.timers s' = Channel.timers s
  /\ Channel._events s' = Channel._events s.
Proof.
  apply (C6_unroutable_frames_are_dropped Examples.accept_all Examples.listening 0
           (Channel.Decoded (Examples.frame "heartbeat" Examples.reading))).
  intros kind Hk. injection Hk as <-. simpl.
  intros [H|[H|[H|[H|[H|[H|[]]]]]]]; discriminate.
Defined.

(** C7, as stated, fails, in two ways.  A connection attempt that errors
    does not schedule anything by that: the [error] event runs [onerror],
    which logs and tells the [error] listeners, and the timer is set by
    [onclose] alone; as long as no [close] event is delivered there is no
    reconnect timer, however many errors the socket reports.  And when
    the [WebSocket] constructor throws (here on an address that has no
    [ws:] scheme because [apiUrl] had none), the attempt made by
    [initializeWebSocket] fails, the [catch] logs it and nothing is
    scheduled; the channel is left with no socket and no timer, and stays
    so whatever the runtime delivers. *)
Lemma C7_no_reconnect_counterexample :
  let fresh := Channel.new_VoltnetClient Examples.accept_all
                 Examples.sample_config in
  let errored := Channel.step Examples.accept_all fresh (Channel.SocketError 0) in
  let s := Channel.new_VoltnetClient Examples.ws_scheme_only
             Examples.schemeless_config in
  (Channel.sockets fresh = [Channel.CONNECTING]
   /\ Channel.console errored
      = [Channel.Error "[VOLTNET] WebSocket error:" Js.Undefined]
   /\ Channel.timers errored = []
   /\ Channel.sockets errored = [Channel.CONNECTING]
   /\ Channel.timers
        (Channel.run Examples.accept_all fresh
           [Channel.SocketError 0; Channel.SocketOpened 0; Channel.SocketError 0;
            Channel.TimerFired 0]) = [])
  /\ (Types.enableRealtime Examples.schemeless_config = Some true
      /\ Channel.wsUrl Examples.schemeless_config
         = "api.voltnet.io/ws?apiKey=key-1&participantId=participant-1"
      /\ Channel.console s
         = [Channel.Error "[VOLTNET] Failed to initialize WebSocket:"
              (Js.error "SyntaxError" "invalid URL")]
      /\ Channel.sockets s = []
      /\ Channel.timers s = []
      /\ Channel.terminal s = true
      /\ Channel.run Examples.ws_scheme_only s
           [Channel.SocketClosed 0 true; Channel.SocketError 0;
            Channel.TimerFired 0] = s).
Proof. vm_compute. repeat split. Qed.

(** C7, amended.  The reconnect is scheduled by the [close] event and by
    nothing else.  Provided the [WebSocket] constructor takes the
    channel's address (and realtime is enabled), after any sequence of
    events and calls: whenever a socket that is connecting, open or
    closing is reported closed, with or without an [error] event before
    it, one reconnect timer of 5000 ms is added; an [error] event by
    itself leaves the timers and the sockets as they are; a timer that
    fires starts a new connection attempt; every pending timer is a
    5000 ms one; and the state is never terminal: there is always a socket
    that has not been reported closed yet or a pending timer. *)
Theorem C7_channel_reconnects_forever
    (accepts : string -> bool) (cfg : Types.VoltnetConfig)
    (evs : list Channel.Event) :
  Types.enableRealtime cfg = Some true ->
  accepts (Channel.wsUrl cfg) = true ->
  let s := Channel.run accepts (Channel.new_VoltnetClient accepts cfg) evs in
  Channel.terminal s = false
  /\ Forall (fun t => t = 5000%Z) (Channel.timers s)
  /\ (forall k st failed,
        Channel.sockets s !! k = Some st -> Channel.is_closed st = false ->
        Channel.timers (Channel.step accepts s (Channel.SocketClosed k failed))
        = Channel.timers s ++ [5000%Z])
  /\ (forall k,
        Channel.timers (Channel.step accepts s (Channel.SocketError k))
        = Channel.timers s
        /\ Channel.sockets (Channel.step accepts s (Channel.SocketError k))
           = Channel.sockets s)
  /\ (forall i t,
        Channel.timers s !! i = Some t ->
        let s' := Channel.step accepts s (Channel.TimerFired i) in
        Channel.sockets s' = Channel.sockets s ++ [Channel.CONNECTING]
        /\ Channel.wsConnection s' = Some (length (Channel.sockets s))
        /\ Channel.timers s' = delete i (Channel.timers s)).
Proof.
  intros Hrt Hok s.
  assert (Hinit : Channel.new_VoltnetClient accepts cfg
                  = {| Channel.config := cfg; Channel.wsConnection := Some 0%nat;
                       Channel._events := ∅;
                       Channel.sockets := [Channel.CONNECTING];
                       Channel.timers := []; Channel.console := [];
                       Channel.invoked := [] |}).
  { unfold Channel.new_VoltnetClient, Channel.initializeWebSocket.
    rewrite Hrt. simpl. rewrite Hok. reflexivity. }
  destruct (run_alive accepts evs (Channel.new_VoltnetClient accepts cfg))
    as (Ha & Ht & Hc).
  - rewrite Hinit. exact Hok.
  - rewrite Hinit. left. exists 0%nat, Channel.CONNECTING. split; reflexivity.
  - rewrite Hinit. constructor.
  - fold s in Ha, Ht, Hc.
    split; [apply terminal_alive; exact Ha|]. split; [exact Ht|].
    split; [|split].
    + intros k st failed Hk Hst. eapply step_closed_schedules; eassumption.
    + intros k.
      destruct (step_error_same_channel accepts s k) as (_ & _ & _ & Hs & Htm).
      auto.
    + intros i t Hi. eapply step_timer_reconnects; [exact Hi|].
      rewrite Hc, Hinit. exact Hok.
Qed.

Lemma C7_channel_reconnects_forever_witness :
  let accepts := Examples.accept_all in
  let s := Channel.run accepts
             (Channel.new_VoltnetClient accepts Examples.sample_config)
             [Channel.SocketOpened 0; Channel.SocketError 0;
              Channel.SocketClosed 0 false] in
  Channel.terminal s = false
  /\ Forall (fun t => t = 5000%Z) (Channel.timers s)
  /\ (forall k st failed,
        Channel.sockets s !! k = Some st -> Channel.is_closed st = false ->
        Channel.timers (Channel.step accepts s (Channel.SocketClosed k failed))
        = Channel.timers s ++ [5000%Z])
  /\ (forall k,
        Channel.timers (Channel.step accepts s (Channel.SocketError k))
        = Channel.timers s
        /\ Channel.sockets (Channel.step accepts s (Channel.SocketError k))
           = Channel.sockets s)
  /\ (forall i t,
        Channel.timers s !! i = Some t ->
        let s' := Channel.step accepts s (Channel.TimerFired i) in
        Channel.sockets s' = Channel.sockets s ++ [Channel.CONNECTING]
        /\ Channel.wsConnection s' = Some (length (Channel.sockets s))
        /\ Channel.timers s' = delete i (Channel.timers s)).
Proof.
  apply (C7_channel_reconnects_forever Examples.accept_all Examples.sample_config
           [Channel.SocketOpened 0; Channel.SocketError 0;
            Channel.SocketClosed 0 false]);
    reflexivity.
Defined.

(** * Further properties of utils.ts *)

#[local] Set Warnings "-inexact-float".

Section MoreUtilsFacts.
Import MoreUtils.

Lemma lower_idempotent (c : Ascii.ascii) : lower (lower c) = lower c.
Proof.
  destruct c as [[] [] [] [] [] [] [] []]; reflexivity.
Qed.

Lemma toLowerCase_idempotent (s : string) :
  toLowerCase (toLowerCase s) = toLowerCase s.
Proof.
  induction s as [|c s IH]; simpl; [reflexivity|].
  rewrite lower_idempotent, IH. reflexivity.
Qed.

End MoreUtilsFacts.

(** X1.  [calculateCO2] reads its source without regard to case, and the
    factor it multiplies by is one of 0.05, 0.02, 0.024, 0.5 and [NaN]
    (for the inherited names [constructor] and [__proto__]): it is never
    the 0 written for [battery]. *)
Theorem calculateCO2_factor_range (energyKwh : float) (source : string) :
  MoreUtils.calculateCO2 energyKwh (MoreUtils.toLowerCase source)
  = MoreUtils.calculateCO2 energyKwh source
  /\ MoreUtils.calculateCO2 energyKwh source
     = PrimFloat.mul energyKwh (MoreUtils.factor_of source)
  /\ In (MoreUtils.factor_of source)
       [0.05%float; 0.02%float; 0.024%float; 0.5%float; PrimFloat.nan].
Proof.
  unfold MoreUtils.calculateCO2, MoreUtils.factor_of.
  rewrite toLowerCase_idempotent. split; [reflexivity|]. split; [reflexivity|].
  unfold MoreUtils.emissionFactors.
  repeat match goal with
    | |- context [String.eqb ?a ?b] => destruct (String.eqb a b)
    end; simpl; tauto.
Qed.

(** X2.  A source that spells [battery] in any mix of cases is charged the
    grid's factor: the literal's 0 is falsy, so [|| 0.5] replaces it. *)
Theorem calculateCO2_battery_as_grid (energyKwh : float) (source : string) :
  MoreUtils.toLowerCase source = "battery" ->
  MoreUtils.calculateCO2 energyKwh source
  = PrimFloat.mul energyKwh 0.5%float
  /\ MoreUtils.calculateCO2 energyKwh source
     = MoreUtils.calculateCO2 energyKwh "grid".
Proof.
  intros H. unfold MoreUtils.calculateCO2, MoreUtils.factor_of. rewrite H.
  split; reflexivity.
Qed.

Lemma calculateCO2_battery_as_grid_witness :
  MoreUtils.calculateCO2 100%float "Battery" = PrimFloat.mul 100%float 0.5%float
  /\ MoreUtils.calculateCO2 100%float "Battery"
     = MoreUtils.calculateCO2 100%float "grid".
Proof.
  apply (calculateCO2_battery_as_grid 100%float "Battery"). reflexivity.
Defined.

Section DebounceFacts.
Import MoreUtils.
Context {A : Type}.

Lemma call_args_app (l1 l2 : list (DebounceEvent A)) :
  call_args (l1 ++ l2) = call_args l1 ++ call_args l2.
Proof.
  induction l1 as [|[a|i] l1 IH]; simpl; congruence.
Qed.

Lemma debounce_run_snoc (evs : list (DebounceEvent A)) (ev : DebounceEvent A) :
  debounce_run (evs ++ [ev]) = debounce_step (debounce_run evs) ev.
Proof. unfold debounce_run. rewrite foldl_app. reflexivity. Qed.

Lemma debounce_invariant (evs : list (DebounceEvent A)) :
  match timeoutId (debounce_run evs) with
  | None => pending (debounce_run evs) = [] /\ call_args evs = []
  | Some i =>
      pending (debounce_run evs) = []
      \/ exists args, pending (debounce_run evs) = [(i, args)]
                      /\ last (call_args evs) = Some args
  end
  /\ sublist (ran (debounce_run evs) ++ (pending (debounce_run evs)).*2)
       (call_args evs).
Proof.
  induction evs as [|ev evs IH] using rev_ind.
  - simpl. auto.
  - rewrite debounce_run_snoc, call_args_app.
    destruct (debounce_run evs) as [tid pend nid r]. simpl in IH.
    destruct IH as [Hp Hs]. destruct ev as [args|id]; simpl.
    + assert (Hclear : clearTimeout tid pend = []).
      { destruct tid as [i|]; simpl.
        - destruct Hp as [-> | (a & -> & _)]; [reflexivity|].
          rewrite filter_cons. simpl.
          destruct (decide (i <> i)); [congruence|reflexivity].
        - destruct Hp as [-> _]. reflexivity. }
      rewrite Hclear. simpl. split.
      * right. exists args. split; [reflexivity|]. apply last_snoc.
      * apply sublist_app; [|reflexivity].
        etrans; [|exact Hs]. apply sublist_inserts_r. reflexivity.
    + rewrite app_nil_r.
      destruct tid as [i|].
      * destruct Hp as [-> | (a & -> & Hlast)]; simpl.
        -- split; [left; reflexivity | exact Hs].
        -- destruct (decide (i = id)) as [->|Hne]; simpl.
           ++ rewrite filter_cons. simpl.
              destruct (decide (id <> id)); [congruence|]. simpl.
              split; [left; reflexivity|].
              rewrite app_nil_r. exact Hs.
           ++ split; [right; eauto | exact Hs].
      * destruct Hp as [-> Hc]. simpl.
        split; [split; [reflexivity | exact Hc] | exact Hs].
Qed.
End DebounceFacts.

(** X3.  A debounced function never has more than one timer pending, and
    the pending timer is the one [timeoutId] holds, carrying the arguments
    of the latest call. *)
Theorem debounce_single_timer
    (A : Type) (evs : list (MoreUtils.DebounceEvent A)) :
  (length (MoreUtils.pending (MoreUtils.debounce_run evs)) <= 1)%nat
  /\ (forall i args,
        In (i, args) (MoreUtils.pending (MoreUtils.debounce_run evs)) ->
        MoreUtils.timeoutId (MoreUtils.debounce_run evs) = Some i
        /\ last (MoreUtils.call_args evs) = Some args).
Proof.
  destruct (debounce_invariant evs) as [Hp _].
  destruct (MoreUtils.timeoutId (MoreUtils.debounce_run evs)) as [i|].
  - destruct Hp as [-> | (a & -> & Hlast)]; simpl.
    + split; [lia | intros ? ? []].
    + split; [lia|]. intros j args [Heq|[]]. injection Heq as <- <-. auto.
  - destruct Hp as [-> _]. simpl. split; [lia | intros ? ? []].
Qed.

(** X4.  [fn] is only ever run with the arguments of calls, in the order
    of the calls and at most once per call.  When the pending timer
    fires, [fn] is run, once, with the arguments of the latest call,
    whatever calls came before it, and no timer is left; a callback for a
    timer that is not pending changes nothing.  In particular the timer
    set by a call is pending after it, and when it fires next [fn] runs
    with that call's arguments. *)
Theorem debounce_runs_latest_call
    (A : Type) (evs : list (MoreUtils.DebounceEvent A)) (id : nat) :
  let before := MoreUtils.debounce_run evs in
  let after := MoreUtils.debounce_run (evs ++ [MoreUtils.DFire id]) in
  sublist (MoreUtils.ran before) (MoreUtils.call_args evs)
  /\ (forall args,
        In (id, args) (MoreUtils.pending before) ->
        last (MoreUtils.call_args evs) = Some args
        /\ MoreUtils.ran after = MoreUtils.ran before ++ [args]
        /\ MoreUtils.pending after = [])
  /\ ((forall args, ~ In (id, args) (MoreUtils.pending before)) ->
      after = before)
  /\ (forall args,
        let timer := MoreUtils.next_id before in
        MoreUtils.pending (MoreUtils.debounce_run (evs ++ [MoreUtils.DCall args]))
        = [(timer, args)]
        /\ MoreUtils.ran
             (MoreUtils.debounce_run
                (evs ++ [MoreUtils.DCall args; MoreUtils.DFire timer]))
           = MoreUtils.ran before ++ [args]).
Proof.
  intros before after. subst before after.
  rewrite debounce_run_snoc.
  destruct (debounce_invariant evs) as [Hp Hs].
  split; [|split; [|split]].
  - etrans; [|exact Hs]. apply sublist_inserts_r. reflexivity.
  - intros args Hin.
    destruct (MoreUtils.debounce_run evs) as [tid pend nid r]. simpl in *.
    destruct tid as [i|].
    + destruct Hp as [-> | (a & -> & Hlast)]; [destruct Hin|].
      destruct Hin as [Heq|[]]. injection Heq as -> ->. simpl.
      destruct (decide (id = id)) as [_|Hne]; [|congruence]. simpl.
      rewrite filter_cons. simpl.
      destruct (decide (id <> id)); [congruence|]. auto.
    + destruct Hp as [-> _]. destruct Hin.
  - intros Hnot.
    destruct (MoreUtils.debounce_run evs) as [tid pend nid r]. simpl in *.
    destruct tid as [i|].
    + destruct Hp as [-> | (a & -> & Hlast)]; simpl; [reflexivity|].
      destruct (decide (i = id)) as [->|Hne]; simpl; [|reflexivity].
      exfalso. apply (Hnot a). left. reflexivity.
    + destruct Hp as [-> _]. reflexivity.
  - intros args timer. subst timer.
    replace (evs ++ [MoreUtils.DCall args; MoreUtils.DFire
                       (MoreUtils.next_id (MoreUtils.debounce_run evs))])
      with ((evs ++ [MoreUtils.DCall args])
              ++ [MoreUtils.DFire (MoreUtils.next_id (MoreUtils.debounce_run evs))])
      by (rewrite <- app_assoc; reflexivity).
    rewrite !debounce_run_snoc.
    destruct (MoreUtils.debounce_run evs) as [tid pend nid r]. simpl in *.
    assert (Hclear : MoreUtils.clearTimeout tid pend = []).
    { destruct tid as [i|]; simpl.
      - destruct Hp as [-> | (a & -> & _)]; [reflexivity|].
        rewrite filter_cons. simpl.
        destruct (decide (i <> i)); [congruence|reflexivity].
      - destruct Hp as [-> _]. reflexivity. }
    rewrite Hclear. simpl.
    destruct (decide (nid = nid)) as [_|Hne]; [|congruence]. simpl. auto.
Qed.

Section ThrottleFacts.
Import MoreUtils.
Context {A : Type} (fn : A -> option Js.Value).




End ThrottleFacts.


(** X6.  [validateMeasurement] reports [valid] exactly when it has no
    error to report, which is exactly when [deviceId] and [source] are
    truthy, [timestamp] is truthy and a valid date, [energy] is a number
    that is not below 0 and [power] is absent or such a number; the
    errors come in the order of the checks, each at most once. *)
Theorem validateMeasurement_valid_iff
    (isValidTimestamp : MoreUtils.Field -> bool) (m : MoreUtils.Measurement) :
  let result := MoreUtils.validateMeasurement isValidTimestamp m in
  (result.1 = true <-> result.2 = [])
  /\ (result.1 = true <->
      MoreUtils.truthy (MoreUtils.deviceId m) = true
      /\ MoreUtils.truthy (MoreUtils.timestamp m) = true
      /\ isValidTimestamp (MoreUtils.timestamp m) = true
      /\ MoreUtils.not_a_nonnegative_number (MoreUtils.energy m) = false
      /\ (MoreUtils.power m = MoreUtils.Absent
          \/ MoreUtils.not_a_nonnegative_number (MoreUtils.power m) = false)
      /\ MoreUtils.truthy (MoreUtils.source m) = true)
  /\ sublist result.2
       [ "deviceId is required"; "valid timestamp is required";
         "energy must be a non-negative number";
         "power must be a non-negative number"; "source is required" ].
Proof.
  cbv zeta. unfold MoreUtils.validateMeasurement.
  set (bp := match MoreUtils.power m with
             | MoreUtils.Absent => false
             | p => MoreUtils.not_a_nonnegative_number p
             end).
  assert (Hbp : bp = false <->
            (MoreUtils.power m = MoreUtils.Absent
             \/ MoreUtils.not_a_nonnegative_number (MoreUtils.power m) = false)).
  { subst bp. destruct (MoreUtils.power m); simpl; intuition congruence. }
  rewrite <- Hbp. clear Hbp. clearbody bp.
  destruct bp;
  destruct (MoreUtils.truthy (MoreUtils.deviceId m));
  destruct (MoreUtils.truthy (MoreUtils.timestamp m));
  destruct (isValidTimestamp (MoreUtils.timestamp m));
  destruct (MoreUtils.not_a_nonnegative_number (MoreUtils.energy m));
  destruct (MoreUtils.truthy (MoreUtils.source m)); cbv zeta; simpl.
  all: (split; [intuition congruence|]);
  (split; [intuition congruence|]);
  repeat first [apply sublist_nil | apply sublist_skip | apply sublist_cons].
Qed.

Section RetryLoopFacts.
Import Utils.
Context {T E : Type} (fn : nat -> Settled T E).
Local Open Scope Z_scope.





End RetryLoopFacts.





(** * Further properties of the request pipeline *)

Section MoreHttpFacts.
Import Http.
Local Open Scope Z_scope.
Variable retries : Z.
Variable adapter : Adapter.

(** After [k] retryable failures within the budget, the attempt that
    resolves ends the call. *)
Lemma httpClient_recovers (resp : Response) :
  forall (k n : nat) (req : RequestConfig),
    (forall j c, (j < k)%nat ->
       exists r, adapter (n + j)%nat c = Rejected r /\ retryable r) ->
    (forall c, adapter (n + k)%nat c = Resolved resp) ->
    retry_count req + Z.of_nat k <= retries ->
    (httpClient retries adapter n req).1 = Resolved resp
    /\ attempts (httpClient retries adapter n req).2 = S k
    /\ delays (httpClient retries adapter n req).2
       = map (fun j => 2 ^ j * 1000) (seqZ (retry_count req + 1) (Z.of_nat k)).
Proof.
  induction k as [|k IH]; intros n req Hfail Hok Hbudget.
  - rewrite (httpClient_resolved retries adapter n req resp).
    + simpl. auto.
    + rewrite <- (Nat.add_0_r n). apply Hok.
  - destruct (Hfail 0%nat req ltac:(lia)) as (r & Hr & Hretry).
    rewrite Nat.add_0_r in Hr.
    rewrite (httpClient_retry retries adapter n req r Hr ltac:(lia) Hretry).
    destruct (IH (S n) (set_retry req (retry_count req + 1))) as (H1 & H2 & H3).
    + intros j c Hj. specialize (Hfail (S j) c ltac:(lia)).
      replace (S n + j)%nat with (n + S j)%nat by lia. exact Hfail.
    + intros c. replace (S n + k)%nat with (n + S k)%nat by lia. apply Hok.
    + rewrite retry_count_set_retry. lia.
    + simpl. rewrite H1, H2, H3. rewrite retry_count_set_retry.
      split; [reflexivity|]. split; [reflexivity|].
      rewrite (seqZ_cons (retry_count req + 1) (Z.of_nat (S k))) by lia.
      simpl. do 2 f_equal. f_equal; lia.
Qed.


(** A call resolves only with what its last attempt resolved with. *)
Lemma httpClient_resolves_last (n : nat) (req : RequestConfig) (resp : Response) :
  (httpClient retries adapter n req).1 = Resolved resp ->
  exists (k : nat) (c : RequestConfig),
    last (httpClient retries adapter n req).2 = Some (Attempt k c)
    /\ adapter k c = Resolved resp.
Proof.
  funelim (httpClient retries adapter n req); simpl; intros Hres.
  - injection Hres as <-. exists n, req. auto.
  - match goal with
    | IH : forall _, _ -> _ |- _ =>
        destruct (IH _ Hres) as (k & c & Hlast & Hk)
    end.
    exists k, c. split; [|exact Hk].
    rewrite !last_cons, Hlast. reflexivity.
  - discriminate.
Qed.

(** Every attempt that is followed by another one failed with a
    retryable failure while the counter was below [retries]. *)
Lemma httpClient_retries_only_retryable (n : nat) (req : RequestConfig) :
  forall (k : nat) (pre post : list Effect) (c : RequestConfig),
    (httpClient retries adapter n req).2 = pre ++ Attempt k c :: post ->
    post <> [] ->
    exists r, adapter k c = Rejected r /\ retryable r
              /\ retry_count c < retries.
Proof.
  funelim (httpClient retries adapter n req); simpl;
    intros k pre post c Htr Hpost.
  - destruct pre as [|x [|y pre]]; simplify_eq/=.
  - match goal with
    | Hb : andb _ _ = true |- _ =>
        destruct (proj1 (andb_true_iff _ _) Hb) as [Hlt%Z.ltb_lt Hs]
    end.
    apply shouldRetry_retryable in Hs.
    destruct pre as [|x pre]; simplify_eq/=; [eauto|].
    destruct pre as [|y pre]; simplify_eq/=.
    match goal with
    | IH : forall _ _ _ _, _ -> _ -> _, Hrest : _ = pre ++ _ |- _ =>
        exact (IH _ _ _ _ Hrest Hpost)
    end.
  - destruct pre as [|x [|y pre]]; simplify_eq/=.
Qed.

(** The interceptor does not touch the timeout: a retry is sent with the
    timeout of the attempt before it. *)
Lemma httpClient_timeout (n : nat) (req : RequestConfig) :
  Forall (fun c => req_timeout c = req_timeout req)
    (sent_configs (httpClient retries adapter n req).2).
Proof.
  funelim (httpClient retries adapter n req); simpl.
  - constructor; [reflexivity | constructor].
  - constructor; [reflexivity | assumption].
  - constructor; [reflexivity | constructor].
Qed.

End MoreHttpFacts.

(** X9.  If the backend fails the first [k] attempts of a call with
    retryable failures and answers the next one, and [k] is within the
    retries the interceptor allows, the call resolves with that answer
    after [k + 1] attempts, having slept 2 s, 4 s, ... [2^k] s. *)
Theorem request_recovers
    (cfg : Types.VoltnetConfig) (adapter : Http.Adapter)
    (m : Http.Method) (path : string) (query data : option string)
    (k : nat) (resp : Http.Response) :
  (forall j c, (j < k)%nat ->
     exists r, adapter j c = Rejected r /\ Http.retryable r) ->
  (forall c, adapter k c = Resolved resp) ->
  (Z.of_nat k <= Http.interceptor_retries (Http.create_httpClient cfg))%Z ->
  let out := Http.request (Http.create_httpClient cfg) adapter m path query data in
  out.1 = Resolved resp
  /\ Http.attempts out.2 = S k
  /\ Http.delays out.2
     = map (fun j => 2 ^ j * 1000)%Z (seqZ 1 (Z.of_nat k)).
Proof.
  intros Hfail Hok Hk out. subst out. unfold Http.request.
  apply (httpClient_recovers _ adapter resp k 0%nat); simpl; try assumption.
Qed.

Lemma request_recovers_witness :
  let out := Http.request (Http.create_httpClient MoreExamples.two_retries)
               MoreExamples.recovering Http.GET "/participants/p" None None in
  out.1 = Resolved Examples.ok
  /\ Http.attempts out.2 = 3%nat
  /\ Http.delays out.2
     = map (fun j => 2 ^ j * 1000)%Z (seqZ 1 (Z.of_nat 2)).
Proof.
  apply (request_recovers MoreExamples.two_retries MoreExamples.recovering
           Http.GET "/participants/p" None None 2 Examples.ok).
  - intros j c Hj. exists (Some MoreExamples.server_error). split.
    + destruct j as [|[|j]]; [reflexivity | reflexivity | lia].
    + right. exists MoreExamples.server_error. split; [reflexivity|].
      left. simpl. lia.
  - intros c. reflexivity.
  - simpl. lia.
Defined.


(** X11.  A call resolves only with the response its last attempt resolved
    with, and every attempt before the last one of a call, resolved or
    rejected, failed with a retryable failure: the pipeline never retries
    a success or a non-retryable failure. *)
Theorem request_outcome_is_last_attempt
    (cfg : Types.VoltnetConfig) (adapter : Http.Adapter)
    (m : Http.Method) (path : string) (query data : option string) :
  let out := Http.request (Http.create_httpClient cfg) adapter m path query data in
  (forall resp, out.1 = Resolved resp ->
     exists k c, last out.2 = Some (Http.Attempt k c)
                 /\ adapter k c = Resolved resp)
  /\ (forall k pre post c,
        out.2 = pre ++ Http.Attempt k c :: post -> post <> [] ->
        exists r, adapter k c = Rejected r /\ Http.retryable r).
Proof.
  intros out. subst out. unfold Http.request. split.
  - intros resp Hres. eapply httpClient_resolves_last. exact Hres.
  - intros k pre post c Htr Hpost.
    destruct (httpClient_retries_only_retryable _ _ _ _ _ _ _ _ Htr Hpost)
      as (r & Hr & Hretry & _).
    eauto.
Qed.

(** X12.  Every attempt of a call, retries included, is sent with the same
    timeout: the configured [network.timeout] when that is a number other
    than 0, and 30000 when it is absent or 0; so the timeout sent is
    never 0, which would mean no timeout at all. *)
Theorem request_timeout_never_zero
    (cfg : Types.VoltnetConfig) (adapter : Http.Adapter)
    (m : Http.Method) (path : string) (query data : option string) :
  let inst := Http.create_httpClient cfg in
  let out := Http.request inst adapter m path query data in
  Forall (fun sent => Http.req_timeout sent <> 0%Z) (Http.sent_configs out.2)
  /\ (forall t, (n ← Types.network cfg; Types.timeout n) = Some t ->
        t <> 0%Z ->
        Forall (fun sent => Http.req_timeout sent = t) (Http.sent_configs out.2))
  /\ ((n ← Types.network cfg; Types.timeout n) = None
      \/ (n ← Types.network cfg; Types.timeout n) = Some 0%Z ->
      Forall (fun sent => Http.req_timeout sent = 30000%Z)
        (Http.sent_configs out.2))
  /\ (1 <= length (Http.sent_configs out.2))%nat.
Proof.
  intros inst out. subst out. unfold Http.request.
  pose proof (httpClient_timeout (Http.interceptor_retries inst) adapter
                0%nat (Http.request_config inst m path query data)) as Hsame.
  simpl in Hsame.
  split; [|split; [|split]].
  - eapply Forall_impl; [exact Hsame|]. intros sent ->.
    unfold or_default.
    destruct (n ← Types.network cfg; Types.timeout n) as [v|]; [|lia].
    destruct (v =? 0)%Z eqn:Hv; [lia|]. apply Z.eqb_neq in Hv. exact Hv.
  - intros t Ht Hne. eapply Forall_impl; [exact Hsame|]. intros sent ->.
    unfold or_default. rewrite Ht. apply Z.eqb_neq in Hne. rewrite Hne.
    reflexivity.
  - intros Hcase. eapply Forall_impl; [exact Hsame|]. intros sent ->.
    unfold or_default. destruct Hcase as [-> | ->]; reflexivity.
  - rewrite sent_configs_length. apply httpClient_attempts_pos.
Qed.

(** * Further properties of the realtime channel *)

Section StringFacts.

Lemma substring_all (s : string) :
  String.substring 0 (String.length s) s = s.
Proof.
  induction s as [|c s IH]; simpl; [reflexivity|]. rewrite IH. reflexivity.
Qed.

Lemma append_assoc (a b c : string) : (a +:+ b) +:+ c = a +:+ (b +:+ c).
Proof.
  induction a as [|x a IH]; [reflexivity|].
  change (String x ((a +:+ b) +:+ c) = String x (a +:+ (b +:+ c))).
  f_equal. exact IH.
Qed.

Lemma index_http (rest : string) :
  String.index 0 "http" ("http" +:+ rest) = Some 0%nat.
Proof. destruct rest; reflexivity. Qed.

(** [replace('http', 'ws')] on a string that begins with [http]. *)
Lemma replace_http (rest : string) :
  Js.replace "http" "ws" ("http" +:+ rest) = "ws" +:+ rest.
Proof.
  unfold Js.replace. rewrite index_http.
  unfold String.append. simpl. fold String.append.
  rewrite Nat.sub_0_r, substring_all. reflexivity.
Qed.

End StringFacts.

(** X13.  For an [apiUrl] that begins with [http], the address of the
    socket is the same URL with [ws] in place of that [http] (so [https]
    gives [wss]), followed by [/ws] and the key and participant as query
    parameters, written as they are; a later [http] in the URL is left
    alone. *)
Theorem wsUrl_scheme (cfg : Types.VoltnetConfig) (rest : string) :
  Types.apiUrl cfg = "http" +:+ rest ->
  Channel.wsUrl cfg
  = "ws" +:+ rest +:+ "/ws?apiKey=" +:+ Types.apiKey cfg
    +:+ "&participantId=" +:+ Types.participantId cfg.
Proof.
  intros Hurl. unfold Channel.wsUrl. rewrite Hurl.
  rewrite replace_http, !append_assoc. reflexivity.
Qed.

Lemma wsUrl_scheme_witness :
  Channel.wsUrl Examples.sample_config
  = "ws" +:+ "s://api.voltnet.io" +:+ "/ws?apiKey="
    +:+ Types.apiKey Examples.sample_config
    +:+ "&participantId=" +:+ Types.participantId Examples.sample_config.
Proof.
  apply (wsUrl_scheme Examples.sample_config "s://api.voltnet.io").
  reflexivity.
Defined.

Section MoreChannelFacts.
Import Types Channel MoreChannel.

Lemma live_app (l1 l2 : list ReadyState) :
  length (filter (fun st => is_closed st = false) (l1 ++ l2))
  = (length (filter (fun st => is_closed st = false) l1)
     + length (filter (fun st => is_closed st = false) l2))%nat.
Proof. rewrite filter_app, length_app. reflexivity. Qed.

(** Changing the state of one socket changes the count of live sockets by
    what that socket contributes. *)
Lemma live_insert (l : list ReadyState) (k : nat) (st st' : ReadyState) :
  l !! k = Some st ->
  (length (filter (fun x => is_closed x = false) (<[k := st']> l))
   + (if is_closed st then 0 else 1)
   = length (filter (fun x => is_closed x = false) l)
     + (if is_closed st' then 0 else 1))%nat.
Proof.
  revert k. induction l as [|x l IH]; intros k Hk; [destruct k; discriminate|].
  destruct k as [|k]; simpl in *.
  - injection Hk as ->. rewrite !filter_cons.
    destruct (decide (is_closed st' = false)) as [H1|H1];
      destruct (decide (is_closed st = false)) as [H2|H2]; simpl;
      destruct (is_closed st), (is_closed st'); simpl; congruence || lia.
  - rewrite !filter_cons. specialize (IH k Hk).
    destruct (decide (is_closed x = false)); simpl; lia.
Qed.

Section MoreSteps.
Variable accepts : string -> bool.

Lemma live_same_channel (s s' : State) :
  same_channel s s' ->
  live_sockets s' = live_sockets s /\ timers s' = timers s.
Proof.
  intros (_ & _ & _ & Hs & Ht). unfold live_sockets. rewrite Hs. auto.
Qed.

Lemma step_one_thread (s : State) (ev : Event) :
  accepts (wsUrl (config s)) = true ->
  (live_sockets s + length (timers s) = 1)%nat ->
  (live_sockets (step accepts s ev) + length (timers (step accepts s ev)) = 1)%nat.
Proof.
  intros Hok Hone.
  destruct ev as [k|k d|k failed|i|event l| |k].
  - simpl. destruct (sockets s !! k) as [st|] eqn:Hk; [|exact Hone].
    destruct st; try exact Hone.
    pose proof (live_insert (sockets s) k CONNECTING OPEN Hk) as H.
    unfold live_sockets in *. simpl in *. lia.
  - simpl. destruct (sockets s !! k) as [[| | |]|]; try exact Hone.
    destruct (live_same_channel s _
                (same_channel_deliver s (onmessage s d)
                   (same_channel_onmessage s d))) as [-> ->].
    exact Hone.
  - destruct (sockets s !! k) as [st|] eqn:Hk;
      [|simpl; rewrite Hk; exact Hone].
    destruct (is_closed st) eqn:Hst.
    + destruct st; try discriminate. simpl. rewrite Hk. exact Hone.
    + rewrite (step_closed_schedules accepts s k st failed Hk Hst).
      assert (Hsock : sockets (step accepts s (SocketClosed k failed))
                      = <[k := CLOSED]> (sockets s)).
      { simpl. rewrite Hk.
        destruct st; try discriminate; destruct failed; simpl;
          repeat match goal with
            | |- context [deliver ?r] => unfold deliver; destruct (r.1); simpl
            end; reflexivity. }
      pose proof (live_insert (sockets s) k st CLOSED Hk) as H.
      unfold live_sockets in *. rewrite Hsock, length_app. simpl.
      rewrite Hst in H. simpl in H. lia.
  - destruct (timers s !! i) as [t|] eqn:Hi; [|simpl; rewrite Hi; exact Hone].
    destruct (step_timer_reconnects accepts s i t Hi Hok) as (Hs & _ & Ht).
    unfold live_sockets in *. rewrite Hs, Ht, live_app. simpl.
    rewrite length_delete by eauto.
    apply lookup_lt_Some in Hi. lia.
  - exact Hone.
  - simpl. unfold disconnect.
    destruct (wsConnection s) as [k|]; [|exact Hone].
    unfold close. destruct (sockets s !! k) as [st|] eqn:Hk; [|exact Hone].
    destruct st; try exact Hone.
    + pose proof (live_insert (sockets s) k CONNECTING CLOSING Hk) as H.
      unfold live_sockets in *. simpl in *. lia.
    + pose proof (live_insert (sockets s) k OPEN CLOSING Hk) as H.
      unfold live_sockets in *. simpl in *. lia.
  - simpl. destruct (sockets s !! k) as [[| | |]|]; try exact Hone;
      destruct (live_same_channel s _
                  (same_channel_deliver s (onerror s)
                     (same_channel_onerror s))) as [-> ->];
      exact Hone.
Qed.

Lemma step_newest (s : State) (ev : Event) :
  (forall k, wsConnection s = Some k -> length (sockets s) = S k) ->
  forall k, wsConnection (step accepts s ev) = Some k ->
            length (sockets (step accepts s ev)) = S k.
Proof.
  intros Hnew.
  destruct ev as [k|k d|k failed|i|event l| |k]; simpl.
  - destruct (sockets s !! k) as [[| | |]|]; try exact Hnew.
    simpl. rewrite length_insert. exact Hnew.
  - destruct (sockets s !! k) as [[| | |]|]; try exact Hnew.
    destruct (same_channel_deliver s (onmessage s d)
                (same_channel_onmessage s d)) as (_ & -> & _ & -> & _).
    exact Hnew.
  - destruct (sockets s !! k) as [[| | |]|]; try exact Hnew;
      destruct failed; simpl;
      repeat match goal with
        | |- context [deliver ?r] => unfold deliver; destruct (r.1); simpl
        end; rewrite length_insert; exact Hnew.
  - destruct (timers s !! i); [|exact Hnew].
    unfold initializeWebSocket. simpl. destruct (accepts _); simpl.
    + intros k Hk. injection Hk as <-. rewrite length_app. simpl. lia.
    + exact Hnew.
  - exact Hnew.
  - unfold disconnect. destruct (wsConnection s) as [k|] eqn:Hw; simpl.
    + discriminate.
    + rewrite Hw. discriminate.
  - destruct (sockets s !! k) as [[| | |]|]; try exact Hnew;
      destruct (same_channel_deliver s (onerror s)
                  (same_channel_onerror s)) as (_ & -> & _ & -> & _);
      exact Hnew.
Qed.

Lemma run_one_thread (evs : list Event) (s : State) :
  accepts (wsUrl (config s)) = true ->
  (live_sockets s + length (timers s) = 1)%nat ->
  (live_sockets (run accepts s evs) + length (timers (run accepts s evs)) = 1)%nat.
Proof.
  revert s. induction evs as [|ev evs IH]; intros s Hok Hone; simpl.
  - exact Hone.
  - apply IH.
    + rewrite step_config. exact Hok.
    + apply step_one_thread; assumption.
Qed.

Lemma run_newest (evs : list Event) (s : State) :
  (forall k, wsConnection s = Some k -> length (sockets s) = S k) ->
  forall k, wsConnection (run accepts s evs) = Some k ->
            length (sockets (run accepts s evs)) = S k.
Proof.
  revert s. induction evs as [|ev evs IH]; intros s Hnew; simpl.
  - exact Hnew.
  - apply IH. apply step_newest. exact Hnew.
Qed.

(** A client without sockets or timers stays so. *)
Lemma step_no_channel (s : State) (ev : Event) :
  sockets s = [] -> timers s = [] -> wsConnection s = None ->
  sockets (step accepts s ev) = [] /\ timers (step accepts s ev) = []
  /\ wsConnection (step accepts s ev) = None
  /\ console (step accepts s ev) = console s
  /\ invoked (step accepts s ev) = invoked s.
Proof.
  intros Hs Ht Hw.
  destruct ev as [k|k d|k failed|i|event l| |k]; simpl;
    rewrite ?Hs, ?Ht, ?lookup_nil; simpl; auto.
  unfold disconnect. rewrite Hw. simpl. auto.
Qed.

Lemma run_no_channel (evs : list Event) (s : State) :
  sockets s = [] -> timers s = [] -> wsConnection s = None ->
  sockets (run accepts s evs) = [] /\ timers (run accepts s evs) = []
  /\ wsConnection (run accepts s evs) = None
  /\ console (run accepts s evs) = console s
  /\ invoked (run accepts s evs) = invoked s.
Proof.
  revert s. induction evs as [|ev evs IH]; intros s Hs Ht Hw; simpl.
  - auto.
  - destruct (step_no_channel s ev Hs Ht Hw) as (H1 & H2 & H3 & H4 & H5).
    destruct (IH _ H1 H2 H3) as (I1 & I2 & I3 & I4 & I5).
    repeat split; congruence.
Qed.

End MoreSteps.
End MoreChannelFacts.

(** X14.  With realtime enabled and an address the constructor takes,
    the channel always holds exactly one thing: one socket that is not
    closed yet and no timer, or no such socket and one pending reconnect
    timer.  It never has two connections, or two timers, at once. *)
Theorem channel_single_connection
    (accepts : string -> bool) (cfg : Types.VoltnetConfig)
    (evs : list Channel.Event) :
  Types.enableRealtime cfg = Some true ->
  accepts (Channel.wsUrl cfg) = true ->
  let s := Channel.run accepts (Channel.new_VoltnetClient accepts cfg) evs in
  (MoreChannel.live_sockets s + length (Channel.timers s) = 1)%nat.
Proof.
  intros Hrt Hok s. subst s. apply run_one_thread.
  - unfold Channel.new_VoltnetClient, Channel.initializeWebSocket.
    rewrite Hrt. simpl. rewrite Hok. simpl. exact Hok.
  - unfold Channel.new_VoltnetClient, Channel.initializeWebSocket.
    rewrite Hrt. simpl. rewrite Hok. reflexivity.
Qed.

Lemma channel_single_connection_witness :
  let s := Channel.run Examples.accept_all
             (Channel.new_VoltnetClient Examples.accept_all Examples.sample_config)
             [Channel.SocketOpened 0; Channel.SocketClosed 0 true;
              Channel.TimerFired 0] in
  (MoreChannel.live_sockets s + length (Channel.timers s) = 1)%nat.
Proof.
  apply (channel_single_connection Examples.accept_all Examples.sample_config
           [Channel.SocketOpened 0; Channel.SocketClosed 0 true;
            Channel.TimerFired 0]); reflexivity.
Defined.

(** X15.  Whenever the client holds a connection in [wsConnection], it is
    the socket created last: a reconnection replaces the connection the
    client holds, it never goes back to an older socket. *)
Theorem wsConnection_is_newest_socket
    (accepts : string -> bool) (cfg : Types.VoltnetConfig)
    (evs : list Channel.Event) (k : nat) :
  let s := Channel.run accepts (Channel.new_VoltnetClient accepts cfg) evs in
  Channel.wsConnection s = Some k ->
  length (Channel.sockets s) = S k.
Proof.
  intros s. subst s. apply run_newest.
  unfold Channel.new_VoltnetClient, Channel.initializeWebSocket.
  destruct (Types.enableRealtime cfg) as [[|]|]; simpl;
    try discriminate.
  destruct (accepts _); simpl; [|discriminate].
  intros j Hj. injection Hj as <-. reflexivity.
Qed.

Lemma wsConnection_is_newest_socket_witness :
  let s := Channel.run Examples.accept_all
             (Channel.new_VoltnetClient Examples.accept_all Examples.sample_config)
             [Channel.SocketOpened 0; Channel.SocketClosed 0 false;
              Channel.TimerFired 0] in
  length (Channel.sockets s) = 2%nat.
Proof.
  apply (wsConnection_is_newest_socket Examples.accept_all Examples.sample_config
           [Channel.SocketOpened 0; Channel.SocketClosed 0 false;
            Channel.TimerFired 0] 1).
  reflexivity.
Defined.

(** X16.  A client built without [enableRealtime] (absent or false) never
    has a socket or a timer, whatever is delivered or called: no
    connection, no reconnection, nothing logged, no listener called. *)
Theorem realtime_disabled_no_channel
    (accepts : string -> bool) (cfg : Types.VoltnetConfig)
    (evs : list Channel.Event) :
  Types.enableRealtime cfg <> Some true ->
  let s := Channel.run accepts (Channel.new_VoltnetClient accepts cfg) evs in
  Channel.sockets s = [] /\ Channel.timers s = []
  /\ Channel.wsConnection s = None
  /\ Channel.console s = [] /\ Channel.invoked s = [].
Proof.
  intros Hrt s. subst s.
  assert (Hinit : Channel.new_VoltnetClient accepts cfg
                  = {| Channel.config := cfg; Channel.wsConnection := None;
                       Channel._events := ∅; Channel.sockets := [];
                       Channel.timers := []; Channel.console := [];
                       Channel.invoked := [] |}).
  { unfold Channel.new_VoltnetClient.
    destruct (Types.enableRealtime cfg) as [[|]|]; congruence. }
  rewrite Hinit. apply run_no_channel; reflexivity.
Qed.

Lemma realtime_disabled_no_channel_witness :
  let s := Channel.run Examples.accept_all
             (Channel.new_VoltnetClient Examples.accept_all MoreExamples.two_retries)
             [Channel.SocketOpened 0; Channel.TimerFired 0; Channel.Disconnect] in
  Channel.sockets s = [] /\ Channel.timers s = []
  /\ Channel.wsConnection s = None
  /\ Channel.console s = [] /\ Channel.invoked s = [].
Proof.
  apply (realtime_disabled_no_channel Examples.accept_all MoreExamples.two_retries
           [Channel.SocketOpened 0; Channel.TimerFired 0; Channel.Disconnect]).
  discriminate.
Defined.

(** X17.  [disconnect()] is idempotent: a second call changes nothing. *)
Theorem disconnect_idempotent (s : Channel.State) :
  Channel.disconnect (Channel.disconnect s) = Channel.disconnect s.
Proof.
  unfold Channel.disconnect, Emitter.removeAllListeners.
  destruct (Channel.wsConnection s) as [k|] eqn:Hw; simpl.
  - reflexivity.
  - rewrite Hw. reflexivity.
Qed.

(** X18.  A frame of a routed kind whose listeners all return is
    dispatched to the listeners of that kind and to no other: each is
    called once with the frame's payload, in subscription order, nothing
    is logged and nothing else changes; with no listener for the kind
    nothing happens at all. *)
Theorem frame_routed_to_its_kind
    (s : Channel.State) (event : string) (payload : Js.Value)
    (ls : list Emitter.Listener) :
  In event Channel.recognized ->
  default [] (Channel._events s !! event) = ls ->
  Forall (fun h => Emitter.fn h payload = None) ls ->
  Channel.onmessage s (Channel.Decoded (Examples.frame event payload))
  = (Js.Normal,
     Channel.record_calls s (map (Emitter.call_of payload) ls)).
Proof.
  intros Hin Hreg Hret.
  assert (Hemit : Emitter.emit (Channel._events s) event payload
                  = (Js.Normal, map (Emitter.call_of payload) ls)).
  { unfold Emitter.emit.
    destruct (Channel._events s !! event) as [ls'|]; simpl in Hreg; subst ls.
    - apply call_listeners_all_return. exact Hret.
    - reflexivity. }
  unfold Channel.recognized in Hin. simpl in Hin.
  destruct Hin as [<-|[<-|[<-|[<-|[<-|[<-|[]]]]]]];
    unfold Channel.onmessage, Channel.handleWebSocketMessage, Channel.emit;
    simpl; rewrite Hemit; reflexivity.
Qed.

Lemma frame_routed_to_its_kind_witness :
  Channel.onmessage MoreExamples.watching
    (Channel.Decoded (Examples.frame "offer" Examples.reading))
  = (Js.Normal,
     Channel.record_calls MoreExamples.watching
       (map (Emitter.call_of Examples.reading)
          [Examples.quiet 1; Examples.quiet 2])).
Proof.
  apply (frame_routed_to_its_kind MoreExamples.watching "offer" Examples.reading
           [Examples.quiet 1; Examples.quiet 2]).
  - simpl. auto.
  - vm_compute. reflexivity.
  - repeat constructor.
Defined.

(** * Properties of the resource modules *)

Section ModulesFacts.
Import Modules.

Lemma listeners_on (s : Channel.State) (event other : string) (l : Emitter.Listener) :
  listeners (client_on s event l) other
  = if decide (other = event) then listeners s event ++ [l] else listeners s other.
Proof.
  unfold listeners, client_on, Emitter.on. simpl.
  destruct (decide (other = event)) as [->|Hne].
  - rewrite lookup_insert_eq. reflexivity.
  - rewrite lookup_insert_ne by congruence. reflexivity.
Qed.

Lemma listeners_off (s : Channel.State) (event other : string) (l : Emitter.Listener) :
  listeners (client_off s event l) other
  = if decide (other = event)
    then filter (fun x => Emitter.handle x <> Emitter.handle l) (listeners s event)
    else listeners s other.
Proof.
  unfold listeners, client_off, off. simpl.
  destruct (Channel._events s !! event) as [ls|] eqn:Hev; simpl.
  - destruct (filter _ ls) as [|x kept] eqn:Hf.
    + destruct (decide (other = event)) as [->|Hne].
      * rewrite lookup_delete_eq. reflexivity.
      * rewrite lookup_delete_ne by congruence. reflexivity.
    + destruct (decide (other = event)) as [->|Hne].
      * rewrite lookup_insert_eq. reflexivity.
      * rewrite lookup_insert_ne by congruence. reflexivity.
  - destruct (decide (other = event)) as [->|Hne]; [|reflexivity].
    rewrite Hev. reflexivity.
Qed.

Lemma filter_keeps_all {A} (P : A -> Prop) `{!forall x, Decision (P x)} (l : list A) :
  Forall P l -> filter P l = l.
Proof.
  induction 1 as [|x l Hx _ IH]; [reflexivity|].
  rewrite filter_cons. destruct (decide (P x)); [|contradiction].
  rewrite IH. reflexivity.
Qed.

Lemma on_off_round_trip (s : Channel.State) (event : string) (l : Emitter.Listener) :
  Forall (fun x => Emitter.handle x <> Emitter.handle l) (listeners s event) ->
  forall other,
    listeners (client_off (client_on s event l) event l) other = listeners s other
    /\ listeners (client_off (client_on (client_on s event l) event l) event l) other
       = listeners s other.
Proof.
  intros Hfresh other.
  rewrite !listeners_off, !listeners_on.
  destruct (decide (other = event)) as [->|Hne]; [|auto].
  destruct (decide (event = event)); [|congruence].
  rewrite !filter_app, (filter_keeps_all _ _ Hfresh).
  rewrite !filter_cons, filter_nil.
  destruct (decide (Emitter.handle l <> Emitter.handle l)); [congruence|].
  rewrite !app_nil_r. auto.
Qed.

End ModulesFacts.

(** X19.  For a callback that is not registered yet, subscribing and then
    unsubscribing it through [PricingEngine] or [TransactionManager]
    leaves the listeners of every event as they were; and had it been
    subscribed twice, the one unsubscription removes both registrations. *)
Theorem subscription_round_trip (s : Channel.State) (callback : Emitter.Listener) :
  (forall event,
     Forall (fun x => Emitter.handle x <> Emitter.handle callback)
       (Modules.listeners s event)) ->
  forall other,
    Modules.listeners
      (Modules.unsubscribeFromPriceUpdates
         (Modules.subscribeToPriceUpdates s callback) callback) other
    = Modules.listeners s other
    /\ Modules.listeners
         (Modules.unsubscribeFromTransactions
            (Modules.subscribeToTransactions s callback) callback) other
       = Modules.listeners s other
    /\ Modules.listeners
         (Modules.unsubscribeFromSettlements
            (Modules.subscribeToSettlements s callback) callback) other
       = Modules.listeners s other
    /\ Modules.listeners
         (Modules.unsubscribeFromPriceUpdates
            (Modules.subscribeToPriceUpdates
               (Modules.subscribeToPriceUpdates s callback) callback) callback)
         other
       = Modules.listeners s other.
Proof.
  intros Hfresh other.
  unfold Modules.unsubscribeFromPriceUpdates, Modules.subscribeToPriceUpdates,
    Modules.unsubscribeFromTransactions, Modules.subscribeToTransactions,
    Modules.unsubscribeFromSettlements, Modules.subscribeToSettlements.
  repeat split;
    first [ apply on_off_round_trip; apply Hfresh ].
Qed.

Lemma subscription_round_trip_witness :
  Modules.listeners
    (Modules.unsubscribeFromPriceUpdates
       (Modules.subscribeToPriceUpdates MoreExamples.watching (Examples.quiet 3))
       (Examples.quiet 3)) "offer"
  = Modules.listeners MoreExamples.watching "offer"
  /\ Modules.listeners
       (Modules.unsubscribeFromTransactions
          (Modules.subscribeToTransactions MoreExamples.watching (Examples.quiet 3))
          (Examples.quiet 3)) "offer"
     = Modules.listeners MoreExamples.watching "offer"
  /\ Modules.listeners
       (Modules.unsubscribeFromSettlements
          (Modules.subscribeToSettlements MoreExamples.watching (Examples.quiet 3))
          (Examples.quiet 3)) "offer"
     = Modules.listeners MoreExamples.watching "offer"
  /\ Modules.listeners
       (Modules.unsubscribeFromPriceUpdates
          (Modules.subscribeToPriceUpdates
             (Modules.subscribeToPriceUpdates MoreExamples.watching
                (Examples.quiet 3)) (Examples.quiet 3)) (Examples.quiet 3))
       "offer"
     = Modules.listeners MoreExamples.watching "offer".
Proof.
  apply (subscription_round_trip MoreExamples.watching (Examples.quiet 3)).
  intros event. unfold Modules.listeners.
  destruct (decide (event = "offer")) as [->|Hne].
  - vm_compute. repeat constructor; discriminate.
  - replace (Channel._events MoreExamples.watching !! event) with
      (@None (list Emitter.Listener)); [constructor|].
    symmetry. unfold MoreExamples.watching. simpl.
    unfold Emitter.on. rewrite !lookup_insert_ne by congruence.
    apply lookup_empty.
Defined.

(** X20.  [P2PMarket.unsubscribeFromOffers(callback)] does not undo
    [subscribeToOffers(callback, filters)]: what was registered is the
    wrapper closure, a function other than [callback], so it stays among
    the listeners of [offer], last in order, and offers keep reaching
    [callback] through it (unfiltered when no filters were given). *)
Theorem unsubscribeFromOffers_keeps_wrapper
    (view : Js.Value -> Modules.OfferView) (s : Channel.State)
    (callback : Emitter.Listener) (filters : option Modules.OfferFilters)
    (wrapper : nat) :
  wrapper <> Emitter.handle callback ->
  let registered :=
    {| Emitter.handle := wrapper;
       Emitter.fn := Modules.wrappedCallback view filters (Emitter.fn callback) |} in
  let after :=
    Modules.unsubscribeFromOffers
      (Modules.subscribeToOffers view s callback filters wrapper) callback in
  Modules.listeners after "offer"
  = filter (fun x => Emitter.handle x <> Emitter.handle callback)
      (Modules.listeners s "offer") ++ [registered]
  /\ (filters = None ->
      forall offer, Emitter.fn registered offer = Emitter.fn callback offer).
Proof.
  intros Hne registered after. subst after.
  unfold Modules.unsubscribeFromOffers, Modules.subscribeToOffers.
  rewrite listeners_off, listeners_on.
  destruct (decide ("offer" = "offer")); [|congruence].
  split.
  - rewrite filter_app, filter_cons, filter_nil. simpl.
    destruct (decide (wrapper <> Emitter.handle callback)); [|contradiction].
    reflexivity.
  - intros -> offer. reflexivity.
Qed.

Lemma unsubscribeFromOffers_keeps_wrapper_witness :
  let view := fun _ : Js.Value =>
    {| Modules.offer_source := "solar"; Modules.pricePerKwh := 1%float |} in
  let registered :=
    {| Emitter.handle := 7%nat;
       Emitter.fn := Modules.wrappedCallback view None
                       (Emitter.fn (Examples.quiet 3)) |} in
  let after :=
    Modules.unsubscribeFromOffers
      (Modules.subscribeToOffers view MoreExamples.watching (Examples.quiet 3)
         None 7) (Examples.quiet 3) in
  Modules.listeners after "offer"
  = filter (fun x => Emitter.handle x <> Emitter.handle (Examples.quiet 3))
      (Modules.listeners MoreExamples.watching "offer") ++ [registered]
  /\ (@None Modules.OfferFilters = None ->
      forall offer, Emitter.fn registered offer
                    = Emitter.fn (Examples.quiet 3) offer).
Proof.
  apply (unsubscribeFromOffers_keeps_wrapper
           (fun _ => {| Modules.offer_source := "solar";
                        Modules.pricePerKwh := 1%float |})
           MoreExamples.watching (Examples.quiet 3) None 7).
  simpl. lia.
Defined.

(** X21.  In [subscribeToOffers] a [maxPrice] of 0 (of either sign) does
    not filter by price at all: the filter is tested for truthiness
    first, so it behaves as if no [maxPrice] had been given; likewise an
    empty [source]. *)
Theorem offer_filter_zero_max_price
    (src : option string) (offer : Modules.OfferView) :
  Modules.filtered_out
    (Some {| Modules.filter_source := src; Modules.maxPrice := Some 0%float |}) offer
  = Modules.filtered_out
      (Some {| Modules.filter_source := src; Modules.maxPrice := None |}) offer
  /\ Modules.filtered_out
       (Some {| Modules.filter_source := src; Modules.maxPrice := Some (-0)%float |})
       offer
     = Modules.filtered_out
         (Some {| Modules.filter_source := src; Modules.maxPrice := None |}) offer
  /\ Modules.filtered_out
       (Some {| Modules.filter_source := Some ""; Modules.maxPrice := None |}) offer
     = false.
Proof. repeat split; reflexivity. Qed.

(** X22.  [calculateCost] skips a factor that is 0 (or absent) instead of
    multiplying by it: a price with a zero [timeOfDay], [demandLoad] or
    [greenEnergy] costs what the same price costs without that factor,
    and a [factors] object with no usable factor costs what the bare
    price costs. *)
Theorem calculateCost_ignores_zero_factor
    (round4 : float -> float) (energy perKwh : float)
    (a b : option float) :
  let cost f := Modules.calculateCost round4 energy
                  {| Modules.price_pricePerKwh := perKwh; Modules.factors := f |} in
  cost (Some {| Modules.timeOfDay := Some 0%float; Modules.demandLoad := a;
                Modules.greenEnergy := b |})
  = cost (Some {| Modules.timeOfDay := None; Modules.demandLoad := a;
                  Modules.greenEnergy := b |})
  /\ cost (Some {| Modules.timeOfDay := a; Modules.demandLoad := Some 0%float;
                   Modules.greenEnergy := b |})
     = cost (Some {| Modules.timeOfDay := a; Modules.demandLoad := None;
                     Modules.greenEnergy := b |})
  /\ cost (Some {| Modules.timeOfDay := a; Modules.demandLoad := b;
                   Modules.greenEnergy := Some 0%float |})
     = cost (Some {| Modules.timeOfDay := a; Modules.demandLoad := b;
                     Modules.greenEnergy := None |})
  /\ cost (Some {| Modules.timeOfDay := Some 0%float;
                   Modules.demandLoad := Some 0%float;
                   Modules.greenEnergy := Some 0%float |})
     = round4 (PrimFloat.mul perKwh energy).
Proof. repeat split; reflexivity. Qed.

(** X23.  The placeholder signature proves nothing: [signMeasurement]
    does not use the private key and covers only [deviceId], [timestamp],
    [energy] and [power]; [verifySignature] accepts what [signMeasurement]
    produces under any key, and accepts any measurement carrying a
    non-empty signature. *)
Theorem placeholder_signature
    (base64_json : string -> string -> float -> option float -> string)
    (m : Modules.EnergyMeasurement) (privateKey otherKey publicKey : string) :
  Modules.verifySignature (Modules.signMeasurement base64_json m privateKey) publicKey
  = true
  /\ Modules.signMeasurement base64_json m privateKey
     = Modules.signMeasurement base64_json m otherKey
  /\ (forall m',
        Modules.deviceId m' = Modules.deviceId m ->
        Modules.timestamp m' = Modules.timestamp m ->
        Modules.energy m' = Modules.energy m ->
        Modules.power m' = Modules.power m ->
        Modules.signature (Modules.signMeasurement base64_json m' otherKey)
        = Modules.signature (Modules.signMeasurement base64_json m privateKey))
  /\ (forall sig,
        Modules.signature m = Some sig -> sig <> "" ->
        Modules.verifySignature m publicKey = true).
Proof.
  split; [reflexivity|]. split; [reflexivity|]. split.
  - intros m' H1 H2 H3 H4. simpl. rewrite H1, H2, H3, H4. reflexivity.
  - intros sig Hsig Hne. unfold Modules.verifySignature. rewrite Hsig.
    apply negb_true_iff, String.eqb_neq. exact Hne.
Qed.
